(** * ros_voice_control.py: the voice command bridge

    A shallow embedding of [ASRControl] (src/ros_voice_control.py) and the
    properties of its keyword dispatch, its read/decode/publish loop and its
    shutdown hook.

    The script targets the Python 2 interpreter of ROS 1 ([roslib], plain
    [python] in the shebang): [parse_asr_result] reads the variable [seg] of a
    list comprehension after the comprehension has finished, which in Python 2
    is the last element the comprehension iterated over.  The embedding follows
    that semantics.

    Collaborators (PyAudio stream, pocketsphinx decoder, rospy) are not part
    of the script.  What they answer is supplied by a script of [cycle]s, one
    per loop iteration, and what the program asks of them is recorded as a
    chronological list of [event]s.  An interrupt is handled by rospy's
    signal handler where the interpreter takes it: just before the loop test,
    or as the blocking read of an iteration returns; the loop itself looks
    for the shutdown at its test only.  Failures of the collaborators while
    the constructor sets them up are not modelled. *)

From Stdlib Require Import ZArith List String Ascii Bool Lia.
From Stdlib Require Import Floats.SpecFloat.
Import ListNotations.

Local Open Scope Z_scope.
Local Open Scope string_scope.
Local Open Scope list_scope.

(** ** Python floats: IEEE 754 binary64 *)

Module PyFloat.

Definition prec : Z := 53.
Definition emax : Z := 1024.

Definition float : Type := spec_float.

(** [int] operands are converted before a float operation. *)
Definition of_int (n : Z) : float := binary_normalize prec emax n 0 false.

(** A decimal literal [n / d] is the binary64 nearest to that quotient. *)
Definition literal (n d : Z) : float :=
  SFdiv prec emax (of_int n) (of_int d).

Definition mul (a b : float) : float := SFmul prec emax a b.

(** [a == b] *)
Definition eqb (a b : float) : bool := SFeqb a b.

Definition zero : float := S754_zero false.

(** The literals of the script. *)
Definition lit_0_2 : float := Eval vm_compute in literal 2 10.
Definition lit_0_4 : float := Eval vm_compute in literal 4 10.
Definition two : float := Eval vm_compute in of_int 2.

(** The rational a finite float stands for is [num / 2 ^ scale] with
    [scale] large enough for every binary64 exponent. *)
Definition scale : Z := 1074.

Definition numerator (a : float) : option Z :=
  match a with
  | S754_zero _ => Some 0
  | S754_finite s m e =>
      Some ((if s then -1 else 1) * Zpos m * 2 ^ (e + scale))
  | _ => None
  end.

Definition valid (a : float) : bool := valid_binary prec emax a.

End PyFloat.

(** ** Python 2 byte strings *)

Module PyStr.

Definition lower_ascii (c : ascii) : ascii :=
  let n := nat_of_ascii c in
  if (andb (Nat.leb 65 n) (Nat.leb n 90)) then ascii_of_nat (n + 32) else c.

(** [s.lower()] on a byte string: the letters A-Z, nothing else. *)
Fixpoint lower (s : string) : string :=
  match s with
  | EmptyString => EmptyString
  | String c s' => String (lower_ascii c) (lower s')
  end.

Fixpoint startswith (s sub : string) {struct sub} : bool :=
  match sub, s with
  | EmptyString, _ => true
  | String _ _, EmptyString => false
  | String a sub', String b s' => andb (Ascii.eqb a b) (startswith s' sub')
  end.

Fixpoint find_from (i : Z) (s sub : string) : Z :=
  if startswith s sub then i
  else match s with
       | EmptyString => -1
       | String _ s' => find_from (i + 1) s' sub
       end.

(** [s.find(sub)]: the lowest index where [sub] occurs, or [-1]. *)
Definition find (s sub : string) : Z := find_from 0 s sub.

(** Substring containment, the property [find] is used to test. *)
Definition contains (s sub : string) : Prop :=
  exists pre post, s = (pre ++ sub ++ post)%string.

End PyStr.

(** ** Messages and collaborator data *)

Module geometry_msgs.

Record Vector3 : Type := { x : PyFloat.float; y : PyFloat.float; z : PyFloat.float }.

Record Twist : Type := { linear : Vector3; angular : Vector3 }.

(** [Twist()]: every field is [0.0]. *)
Definition Vector3_new : Vector3 :=
  {| x := PyFloat.zero; y := PyFloat.zero; z := PyFloat.zero |}.

Definition Twist_new : Twist :=
  {| linear := Vector3_new; angular := Vector3_new |}.

Definition set_x (v : Vector3) (a : PyFloat.float) : Vector3 :=
  {| x := a; y := y v; z := z v |}.

Definition set_z (v : Vector3) (a : PyFloat.float) : Vector3 :=
  {| x := x v; y := y v; z := a |}.

Definition set_linear (m : Twist) (v : Vector3) : Twist :=
  {| linear := v; angular := angular m |}.

Definition set_angular (m : Twist) (v : Vector3) : Twist :=
  {| linear := linear m; angular := v |}.

End geometry_msgs.

Import geometry_msgs.

Module pocketsphinx.

(** One element of [decoder.seg()]. *)
Record Segment : Type :=
  { word : string; prob : Z; start_frame : Z; end_frame : Z }.

(** What [decoder.hyp()] returns when it is not [None]. *)
Record hypothesis : Type :=
  { hypstr : string; best_score : Z; hyp_prob : Z }.

(** The decoder as the script sees it after a buffer was processed. *)
Record decoded : Type :=
  { hyp : option hypothesis; seg : list Segment }.

End pocketsphinx.

Import pocketsphinx.

Definition bytes : Type := list Byte.byte.

(** What [stream.read(1024)] does. *)
Inductive read_result : Type :=
| Data (buf : bytes)
| ReadError.

(** Where an interrupt, if one arrives during a loop iteration, is handled:
    the handler runs between two bytecodes of the main thread, so either
    before the loop test is evaluated, or, when it arrives while the
    iteration is blocked in [stream.read], as that call returns. *)
Inductive interrupt_point : Type :=
| NoSignal
| AtLoopTest
| AsReadReturns.

(** The environment of one loop iteration. *)
Record cycle : Type :=
  { sigint : interrupt_point;  (* the interrupt, if any, of this iteration *)
    audio : read_result;       (* stream.read(1024) *)
    decoder : decoded }.       (* the decoder once the buffer is processed *)

(** Calls on the collaborators, in the order the program makes them. *)
Inductive event : Type :=
| init_node (name : string)
| Publisher (topic : string)
| Decoder (model lexicon kwlist : string)
| open_stream
| start_stream
| stream_read (frames : Z)
| start_utt
| end_utt
| process_raw (buf : bytes)
| print_segs (segs : list (string * Z * Z * Z))
| print (s : string)
| publish (m : Twist)
| loginfo (s : string)
| sleep (secs : Z).

Inductive exn : Type :=
| UnboundLocalError (name : string)
| IOError.

(** Callbacks handed to [rospy.on_shutdown]. *)
Inductive hook : Type :=
| ASRControl_shutdown.

(** ** Program state *)

Record ASRControl : Type :=
  { speed : PyFloat.float; msg : Twist }.

Record rospy_core : Type :=
  { shutdown_flag : bool; client_shutdown_hooks : list hook }.

Record world : Type :=
  { self : ASRControl; ros : rospy_core; log : list event }.

(** ** A state and exception monad *)

Definition M (A : Type) : Type := world -> (exn + A) * world.

Definition ret {A} (a : A) : M A := fun w => (inr a, w).

Definition bind {A B} (c : M A) (k : A -> M B) : M B :=
  fun w => match c w with
           | (inl e, w') => (inl e, w')
           | (inr a, w') => k a w'
           end.

Definition raise {A} (e : exn) : M A := fun w => (inl e, w).

Notation "x <- c ;; k" := (bind c (fun x => k))
  (at level 61, c at next level, right associativity).
Notation "c ;; k" := (bind c (fun _ => k))
  (at level 61, right associativity).

Definition emit (e : event) : M unit :=
  fun w => (inr tt, {| self := self w; ros := ros w; log := log w ++ [e] |}).

Definition get_self : M ASRControl := fun w => (inr (self w), w).

Definition put_self (s : ASRControl) : M unit :=
  fun w => (inr tt, {| self := s; ros := ros w; log := log w |}).

Definition get_ros : M rospy_core := fun w => (inr (ros w), w).

Definition put_ros (r : rospy_core) : M unit :=
  fun w => (inr tt, {| self := self w; ros := r; log := log w |}).

Definition set_speed (a : PyFloat.float) : M unit :=
  s <- get_self ;; put_self {| speed := a; msg := msg s |}.

Definition set_msg (m : Twist) : M unit :=
  s <- get_self ;; put_self {| speed := speed s; msg := m |}.

(** [try: c  except: pass] *)
Definition try_ (c : M unit) : M unit :=
  fun w => match c w with
           | (inl _, w') => (inr tt, w')
           | r => r
           end.

Fixpoint for_each {A} (l : list A) (body : A -> M unit) : M unit :=
  match l with
  | [] => ret tt
  | a :: l' => body a ;; for_each l' body
  end.

(** ** rospy: the part of the node lifecycle the script relies on

    Not code of the script: the three functions below follow rospy.core. *)

Module rospy.

(** [rospy.on_shutdown(h)], rospy.core's [add_client_shutdown_hook] *)
Definition on_shutdown (h : hook) : M unit :=
  r <- get_ros ;;
  put_ros {| shutdown_flag := shutdown_flag r;
             client_shutdown_hooks := client_shutdown_hooks r ++ [h] |}.

(** [rospy.is_shutdown()] *)
Definition is_shutdown : M bool :=
  r <- get_ros ;; ret (shutdown_flag r).

(** [rospy.signal_shutdown]: what rospy.core's signal handler
    ([_ros_signal]) and its interpreter-exit handler ([_ros_atexit]) both
    call.  The first call runs the registered client callbacks, each inside
    its own [try/except], empties the list and raises the shutdown flag;
    every later call returns at once. *)
Definition signal_shutdown (call : hook -> M unit) : M unit :=
  r <- get_ros ;;
  if shutdown_flag r then ret tt
  else
    for_each (client_shutdown_hooks r) (fun h => try_ (call h)) ;;
    put_ros {| shutdown_flag := true; client_shutdown_hooks := [] |}.

End rospy.

(** ** class ASRControl *)

(** The variable a Python 2 list comprehension leaves behind: the last
    element iterated over, unbound when there was none. *)
Fixpoint comprehension_var {A} (l : list A) : option A :=
  match l with
  | [] => None
  | [a] => Some a
  | _ :: l' => comprehension_var l'
  end.

Definition full_speed : string := "full speed".

(** [def parse_asr_result(self)], lines 105-121.  [d] is what the decoder
    answers to [hyp()] and [seg()]. *)
Definition parse_asr_result (d : decoded) : M unit :=
  match hyp d with                                             (* 106 *)
  | Some _ =>
      emit (print_segs                                         (* 107-108 *)
              (map (fun seg => (word seg, prob seg, start_frame seg, end_frame seg))
                   (seg d))) ;;
      emit (print "Detected keyphrase, restarting search") ;;  (* 109 *)
      match comprehension_var (seg d) with                     (* 110 *)
      | None => raise (UnboundLocalError "seg")
      | Some seg0 =>
          let seg_word := PyStr.lower (word seg0) in
          emit end_utt ;;                                      (* 111 *)
          emit start_utt ;;                                    (* 112 *)
          if PyStr.find seg_word full_speed >? -1 then         (* 114 *)
            s <- get_self ;;
            if PyFloat.eqb (speed s) PyFloat.lit_0_2 then      (* 115 *)
              m <- (s <- get_self ;; ret (msg s)) ;;           (* 116 *)
              set_msg (set_linear m
                         (set_x (linear m)
                            (PyFloat.mul (x (linear m)) (PyFloat.of_int 2)))) ;;
              m <- (s <- get_self ;; ret (msg s)) ;;           (* 117 *)
              set_msg (set_angular m
                         (set_z (angular m)
                            (PyFloat.mul (z (angular m)) (PyFloat.of_int 2)))) ;;
              set_speed PyFloat.lit_0_4                        (* 118 *)
            else ret tt
          else ret tt
      end
  | None => ret tt
  end ;;
  s <- get_self ;;
  emit (publish (msg s)).                                      (* 121 *)

(** [def shutdown(self)], lines 124-127. *)
Definition shutdown : M unit :=
  emit (loginfo "Stop ASRControl") ;;
  emit (publish Twist_new) ;;
  emit (sleep 1).

Definition call_hook (h : hook) : M unit :=
  match h with
  | ASRControl_shutdown => shutdown
  end.

(** How the [while] loop of the constructor ends. *)
Inductive loop_exit : Type :=
| ShutdownObserved      (* rospy.is_shutdown() answered True *)
| EndOfStream.          (* the read gave no data: break *)

(** rospy's signal handler, when the interrupt of cycle [c] is due at
    point [p]. *)
Definition handle_sigint (c : cycle) (p : interrupt_point) : M unit :=
  match sigint c, p with
  | AtLoopTest, AtLoopTest => rospy.signal_shutdown call_hook
  | AsReadReturns, AsReadReturns => rospy.signal_shutdown call_hook
  | _, _ => ret tt
  end.

(** One pass of [while not rospy.is_shutdown(): ...], lines 96-102: the
    test, the read, then the rest of the body, with the interrupt where the
    environment sends it.  [None] means the body has been run through and
    the loop is at its test again. *)
Definition iteration (c : cycle) : M (option loop_exit) :=
  handle_sigint c AtLoopTest ;;
  stop <- rospy.is_shutdown ;;                                 (* 96 *)
  if stop then ret (Some ShutdownObserved)
  else
    emit (stream_read 1024) ;;                                 (* 97 *)
    handle_sigint c AsReadReturns ;;
    match audio c with
    | ReadError => raise IOError
    | Data buf =>
        match buf with                                         (* 98 *)
        | _ :: _ =>
            emit (process_raw buf) ;;                          (* 99 *)
            parse_asr_result (decoder c) ;;                    (* 102 *)
            ret None
        | [] => ret (Some EndOfStream)                         (* 100-101 *)
        end
    end.

(** The loop over the environment's script.  When the script is used up the
    loop is at its test, which needs nothing from the environment: with the
    shutdown flag up the loop ends, otherwise it goes on to a read the
    script says nothing about, and the loop is still running ([None]). *)
Fixpoint loop (script : list cycle) : M (option loop_exit) :=
  match script with
  | [] =>
      stop <- rospy.is_shutdown ;;
      ret (if stop then Some ShutdownObserved else None)
  | c :: rest =>
      r <- iteration c ;;
      match r with
      | Some why => ret (Some why)
      | None => loop rest
      end
  end.

(** [def __init__(self, model, lexicon, kwlist, pub)], lines 73-102. *)
Definition __init__ (model lexicon kwlist pub : string) (script : list cycle)
  : M (option loop_exit) :=
  set_speed PyFloat.lit_0_2 ;;
  set_msg Twist_new ;;
  emit (init_node "voice_cmd_vel") ;;
  rospy.on_shutdown ASRControl_shutdown ;;
  emit (Publisher pub) ;;
  emit open_stream ;;
  emit start_stream ;;
  emit (Decoder model lexicon kwlist) ;;
  emit start_utt ;;
  loop script.

(** ** The process *)

Record args : Type :=
  { model : string; lexicon : string; kwlist : string; rospub : string }.

(** The argparse defaults. *)
Definition default_args : args :=
  {| model := "/usr/share/pocketsphinx/model/hmm/en_US/hub4wsj_sc_8k";
     lexicon := "voice_cmd.dic";
     kwlist := "voice_cmd.kwlist";
     rospub := "mobile_base/commands/velocity" |}.

(** Before the constructor runs: no node, no callbacks, nothing logged.  The
    two attributes are assigned by the constructor before anything reads
    them. *)
Definition boot : world :=
  {| self := {| speed := PyFloat.zero; msg := Twist_new |};
     ros := {| shutdown_flag := false; client_shutdown_hooks := [] |};
     log := [] |}.

Inductive termination : Type :=
| StillRunning
| Exited (how : exn + loop_exit).

(** The interpreter leaving [c].  The script ends with the constructor call,
    so when [c] returns, or dies of an exception nothing catches, the
    interpreter runs its exit handlers; rospy registers [signal_shutdown] as
    one when it is imported.  While [c] has not ended there is no exit. *)
Definition at_exit (c : M (option loop_exit)) : world -> termination * world :=
  fun w =>
    match c w with
    | (inr None, w') => (StillRunning, w')
    | (inr (Some why), w') =>
        (Exited (inr why), snd (rospy.signal_shutdown call_hook w'))
    | (inl e, w') =>
        (Exited (inl e), snd (rospy.signal_shutdown call_hook w'))
    end.

(** [ASRControl(args.model, args.lexicon, args.kwlist, args.rospub)] *)
Definition main (a : args) (script : list cycle) : termination * world :=
  at_exit (__init__ (model a) (lexicon a) (kwlist a) (rospub a) script) boot.

(** ** Vocabulary of the statements *)

(** The velocity commands a log publishes, oldest first. *)
Fixpoint published (l : list event) : list Twist :=
  match l with
  | [] => []
  | publish m :: l' => m :: published l'
  | _ :: l' => published l'
  end.

(** The buffers a log hands to the decoder, oldest first. *)
Fixpoint decoded_buffers (l : list event) : list bytes :=
  match l with
  | [] => []
  | process_raw b :: l' => b :: decoded_buffers l'
  | _ :: l' => decoded_buffers l'
  end.

(** [w] with [es] logged after what it already holds. *)
Definition logged (w : world) (es : list event) : world :=
  {| self := self w; ros := ros w; log := log w ++ es |}.

(** The test of line 114 on the decoder's answer: a hypothesis exists and
    the lower-cased word of the comprehension's last segment contains
    "full speed". *)
Definition full_speed_detected (d : decoded) : bool :=
  match hyp d, comprehension_var (seg d) with
  | Some _, Some seg0 => PyStr.find (PyStr.lower (word seg0)) full_speed >? -1
  | _, _ => false
  end.

(** pocketsphinx answers [seg()] with at least one segment whenever [hyp()]
    is not [None]. *)
Definition coherent (d : decoded) : Prop :=
  hyp d <> None -> seg d <> [].

(** Lines 116 and 117 applied to a command. *)
Definition doubled (m : Twist) : Twist :=
  set_angular
    (set_linear m (set_x (linear m) (PyFloat.mul (x (linear m)) (PyFloat.of_int 2))))
    (set_z (angular m) (PyFloat.mul (z (angular m)) (PyFloat.of_int 2))).

(** The attributes after lines 114-118 on the decoder's answer [d]. *)
Definition dispatch (d : decoded) (s : ASRControl) : ASRControl :=
  if full_speed_detected d && PyFloat.eqb (speed s) PyFloat.lit_0_2
  then {| speed := PyFloat.lit_0_4; msg := doubled (msg s) |}
  else s.

(** What lines 107-112 log when a hypothesis exists. *)
Definition diagnostics (d : decoded) : list event :=
  match hyp d with
  | None => []
  | Some _ =>
      [print_segs
         (map (fun seg => (word seg, prob seg, start_frame seg, end_frame seg))
              (seg d));
       print "Detected keyphrase, restarting search";
       end_utt;
       start_utt]
  end.

(** What one run of [shutdown] logs. *)
Definition shutdown_events : list event :=
  [loginfo "Stop ASRControl"; publish Twist_new; sleep 1].

(** The node between [rospy.on_shutdown(self.shutdown)] and shutdown. *)
Definition armed (r : rospy_core) : Prop :=
  shutdown_flag r = false /\ client_shutdown_hooks r = [ASRControl_shutdown].

Definition shut_down : rospy_core :=
  {| shutdown_flag := true; client_shutdown_hooks := [] |}.

(** A cycle in which the loop is entered and the read returns data. *)
Definition reads_data (c : cycle) : Prop :=
  sigint c = NoSignal /\ exists b bs, audio c = Data (b :: bs).

Definition buffer (c : cycle) : bytes :=
  match audio c with
  | Data buf => buf
  | ReadError => []
  end.

(** Doubling stays finite unless the operand is in the top binade. *)
Definition below_top (a : PyFloat.float) : bool :=
  match a with
  | S754_zero _ => true
  | S754_finite _ _ e => (e <? PyFloat.emax - PyFloat.prec)%Z
  | _ => false
  end.

(** A decoder answer in which the code's test for "full speed" succeeds. *)
Definition hears_full_speed (d : decoded) : Prop :=
  exists h seg0,
    hyp d = Some h
    /\ comprehension_var (seg d) = Some seg0
    /\ PyStr.contains (PyStr.lower (word seg0)) full_speed.

(** The world in which the constructor enters its loop. *)
Definition started (a : args) : world :=
  {| self := {| speed := PyFloat.lit_0_2; msg := Twist_new |};
     ros := {| shutdown_flag := false;
               client_shutdown_hooks := [ASRControl_shutdown] |};
     log := [init_node "voice_cmd_vel";
             Publisher (rospub a);
             open_stream;
             start_stream;
             Decoder (model a) (lexicon a) (kwlist a);
             start_utt] |}.

(** The world as the read of a pass returns: the read is logged, and an
    interrupt that arrived during it has run [shutdown]. *)
Definition after_read (c : cycle) (w : world) : world :=
  match sigint c with
  | AsReadReturns =>
      {| self := self w; ros := shut_down;
         log := log w ++ stream_read 1024 :: shutdown_events |}
  | _ => logged w [stream_read 1024]
  end.

(** Every way a pass of the loop can go, read off [iteration]. *)
Inductive pass (c : cycle) (w : world)
  : (exn + option loop_exit) * world -> Prop :=
| pass_down :
    shutdown_flag (ros w) = true ->
    pass c w (inr (Some ShutdownObserved), w)
| pass_interrupted :
    armed (ros w) -> sigint c = AtLoopTest ->
    pass c w (inr (Some ShutdownObserved),
              {| self := self w; ros := shut_down;
                 log := log w ++ shutdown_events |})
| pass_end_of_stream :
    armed (ros w) -> sigint c <> AtLoopTest -> audio c = Data [] ->
    pass c w (inr (Some EndOfStream), after_read c w)
| pass_read_error :
    armed (ros w) -> sigint c <> AtLoopTest -> audio c = ReadError ->
    pass c w (inl IOError, after_read c w)
| pass_data (b : Byte.byte) (bs : bytes) :
    armed (ros w) -> sigint c <> AtLoopTest ->
    audio c = Data (b :: bs) -> coherent (decoder c) ->
    pass c w (inr None,
              {| self := dispatch (decoder c) (self w);
                 ros := ros (after_read c w);
                 log := log (after_read c w)
                        ++ process_raw (b :: bs)
                        :: diagnostics (decoder c)
                        ++ [publish (msg (dispatch (decoder c) (self w)))] |})
| pass_unbound (b : Byte.byte) (bs : bytes) :
    armed (ros w) -> sigint c <> AtLoopTest ->
    audio c = Data (b :: bs) ->
    hyp (decoder c) <> None -> seg (decoder c) = [] ->
    pass c w (inl (UnboundLocalError "seg"),
              logged (after_read c w)
                [process_raw (b :: bs);
                 print_segs [];
                 print "Detected keyphrase, restarting search"]).

(** ** Sample inputs *)

Definition segment (w : string) : Segment :=
  {| word := w; prob := 0; start_frame := 0; end_frame := 10 |}.

(** The decoder spotted the one keyphrase "FULL SPEED". *)
Definition heard_full_speed : decoded :=
  {| hyp := Some {| hypstr := "FULL SPEED"; best_score := 0; hyp_prob := 0 |};
     seg := [segment "FULL SPEED"] |}.

(** The decoder spotted nothing. *)
Definition heard_nothing : decoded := {| hyp := None; seg := [] |}.

(** The command (0.5, 0.3) of the specification's scenario. *)
Definition half_and_three_tenths : Twist :=
  {| linear := set_x Vector3_new (PyFloat.literal 5 10);
     angular := set_z Vector3_new (PyFloat.literal 3 10) |}.

(** A bridge in baseline mode holding command [m], its node armed. *)
Definition holding (m : Twist) : world :=
  {| self := {| speed := PyFloat.lit_0_2; msg := m |};
     ros := {| shutdown_flag := false;
               client_shutdown_hooks := [ASRControl_shutdown] |};
     log := [] |}.

(** A cycle that reads one byte of audio, the decoder answering [d]. *)
Definition hearing (d : decoded) : cycle :=
  {| sigint := NoSignal; audio := Data [Byte.x00]; decoder := d |}.

(** A cycle whose read returns no data. *)
Definition end_of_stream : cycle :=
  {| sigint := NoSignal; audio := Data []; decoder := heard_nothing |}.

(** A cycle before whose loop test the interrupt arrives. *)
Definition interrupt : cycle :=
  {| sigint := AtLoopTest; audio := Data [Byte.x00]; decoder := heard_nothing |}.

(** A cycle during whose read the interrupt arrives, the read returning one
    byte of audio and the decoder answering [d]. *)
Definition interrupted_read (d : decoded) : cycle :=
  {| sigint := AsReadReturns; audio := Data [Byte.x00]; decoder := d |}.

(** A cycle whose read raises. *)
Definition read_error : cycle :=
  {| sigint := NoSignal; audio := ReadError; decoder := heard_nothing |}.

(** The keyphrases "full speed" and "forward" spotted in one window. *)
Definition heard_full_speed_then_forward : decoded :=
  {| hyp := Some {| hypstr := "full speed forward"; best_score := 0; hyp_prob := 0 |};
     seg := [segment "full speed"; segment "forward"] |}.

(** The keyword test as the specification words it: substring containment
    in the lower-cased text of the current hypothesis. *)
Definition hypothesis_mentions_full_speed (d : decoded) : bool :=
  match hyp d with
  | Some h => PyStr.find (PyStr.lower (hypstr h)) full_speed >? -1
  | None => false
  end.

(** ** Vocabulary of the further properties *)

(** The calls the constructor makes before its loop, lines 78-94. *)
Definition startup_events (a : args) : list event :=
  [init_node "voice_cmd_vel";
   Publisher (rospub a);
   open_stream;
   start_stream;
   Decoder (model a) (lexicon a) (kwlist a);
   start_utt].

(** The calls that set a collaborator up. *)
Definition is_setup (e : event) : bool :=
  match e with
  | init_node _ | Publisher _ | Decoder _ _ _ | open_stream | start_stream => true
  | _ => false
  end.

(** What the decoder's calls require of one another: it is created once,
    utterances are started and ended in turn, and audio is processed inside
    an utterance. *)
Inductive decoder_state : Type :=
| NoDecoder
| Idle
| InUtterance.

(** The decoder after one more call; [None] once a call came out of turn. *)
Definition decoder_step (st : option decoder_state) (e : event)
  : option decoder_state :=
  match e with
  | Decoder _ _ _ =>
      match st with Some NoDecoder => Some Idle | _ => None end
  | start_utt =>
      match st with Some Idle => Some InUtterance | _ => None end
  | end_utt =>
      match st with Some InUtterance => Some Idle | _ => None end
  | process_raw _ =>
      match st with Some InUtterance => Some InUtterance | _ => None end
  | _ => st
  end.

Definition decoder_after (l : list event) : option decoder_state :=
  fold_left decoder_step l (Some NoDecoder).

(** The commands a run publishes from the baseline, holding [m], over the
    decoder answers [ds]: [m] until the first answer with "full speed", the
    doubled command from that answer on. *)
Fixpoint commands_of_run (m : Twist) (ds : list decoded) : list Twist :=
  match ds with
  | [] => []
  | d :: ds' =>
      if full_speed_detected d
      then repeat (doubled m) (S (List.length ds'))
      else m :: commands_of_run m ds'
  end.

(** The decoder spotted the one keyphrase "stop". *)
Definition heard_stop : decoded :=
  {| hyp := Some {| hypstr := "stop"; best_score := 0; hyp_prob := 0 |};
     seg := [segment "stop"] |}.

(** The decoder reports a hypothesis and iterates over no segment. *)
Definition heard_without_segment : decoded :=
  {| hyp := Some {| hypstr := "stop"; best_score := 0; hyp_prob := 0 |};
     seg := [] |}.

(** The largest finite binary64 number. *)
Definition max_float : PyFloat.float :=
  S754_finite false 9007199254740991 (PyFloat.emax - PyFloat.prec).

(** * Properties *)

(** ** Strings *)

Section StringFacts.

Lemma startswith_spec (s sub : string) :
  PyStr.startswith s sub = true <-> exists post, s = (sub ++ post)%string.
Proof.
  revert s; induction sub as [|a sub IH]; intros s; simpl.
  - split; [intros _; exists s; reflexivity | reflexivity].
  - destruct s as [|b s].
    + split; [discriminate | intros [post H]; discriminate].
    + rewrite andb_true_iff, Ascii.eqb_eq, IH.
      split.
      * intros [-> [post ->]]. exists post. reflexivity.
      * intros [post H]. injection H as -> ->. split; [reflexivity | eauto].
Qed.

Lemma find_from_found (i : Z) (s sub : string) :
  0 <= i -> (PyStr.find_from i s sub > -1 <-> PyStr.contains s sub).
Proof.
  revert i; induction s as [|c s IH]; intros i Hi; simpl.
  - destruct (PyStr.startswith "" sub) eqn:E.
    + split; [intros _ | lia].
      apply startswith_spec in E. destruct E as [post E].
      exists "", post. exact E.
    + split; [lia |].
      intros [pre [post H]].
      destruct pre; [| discriminate].
      assert (PyStr.startswith "" sub = true) as E'
          by (apply startswith_spec; exists post; exact H).
      congruence.
  - destruct (PyStr.startswith (String c s) sub) eqn:E.
    + split; [intros _ | lia].
      apply startswith_spec in E. destruct E as [post E].
      exists "", post. exact E.
    + rewrite (IH (i + 1)) by lia.
      split.
      * intros [pre [post H]]. exists (String c pre), post.
        simpl. rewrite H. reflexivity.
      * intros [pre [post H]]. destruct pre as [|c' pre].
        -- assert (PyStr.startswith (String c s) sub = true) as E'
               by (apply startswith_spec; exists post; exact H).
           congruence.
        -- simpl in H. injection H as _ ->. exists pre, post. reflexivity.
Qed.

(** The test [s.find(sub) > -1] of the script is substring containment. *)
Lemma find_contains (s sub : string) :
  (PyStr.find s sub >? -1) = true <-> PyStr.contains s sub.
Proof.
  unfold PyStr.find. rewrite <- (find_from_found 0 s sub) by lia.
  rewrite Z.gtb_ltb, Z.ltb_lt. lia.
Qed.

End StringFacts.

(** ** Doubling a float *)

Section Doubling.

Import PyFloat.
Local Open Scope Z_scope.

Lemma mul_pow52 (m : positive) :
  (m * 4503599627370496)%positive
  = (m~0~0~0~0~0~0~0~0~0~0~0~0~0~0~0~0~0~0~0~0~0~0~0~0~0~0
      ~0~0~0~0~0~0~0~0~0~0~0~0~0~0~0~0~0~0~0~0~0~0~0~0~0~0)%positive.
Proof. rewrite Pos.mul_comm. reflexivity. Qed.

Lemma mul_two_finite (s : bool) (m : positive) (e : Z) :
  bounded prec emax m e = true ->
  (e <? emax - prec)%Z = true ->
  mul (S754_finite s m e) two
  = if Zpos (digits2_pos m) =? prec
    then S754_finite s m (e + 1)
    else S754_finite s (m~0) e.
Proof.
  unfold bounded, canonical_mantissa, fexp, emin, prec, emax.
  rewrite andb_true_iff, Z.eqb_eq, Z.leb_le, Z.ltb_lt.
  intros [Hc Hb] He.
  unfold mul, two, SFmul. rewrite xorb_false_r, mul_pow52.
  unfold binary_round_aux, shr_fexp, fexp, emin.
  cbn [Zdigits2 digits2_pos shr_record_of_loc].
  unfold prec, emax.
  set (d := digits2_pos m) in *.
  destruct (Z.eqb_spec (Zpos d) 53) as [Hd | Hd].
  - replace (Z.max _ _ - (e + -51)) with 52 by lia.
    cbn [shr iter_pos shr_1 orb shr_m loc_of_shr_record round_nearest_even
         Zdigits2 shr_record_of_loc fst snd].
    fold d.
    replace (Z.max _ _ - (e + -51 + 52)) with 0 by lia.
    cbn [shr shr_m].
    replace (e + -51 + 52) with (e + 1) by lia.
    destruct (Z.leb_spec (e + 1) (1024 - 53)); [reflexivity | lia].
  - replace (Z.max _ _ - (e + -51)) with 51 by lia.
    cbn [shr iter_pos shr_1 orb shr_m loc_of_shr_record round_nearest_even
         Zdigits2 shr_record_of_loc fst snd digits2_pos].
    fold d.
    replace (Z.max _ _ - (e + -51 + 51)) with 0 by lia.
    cbn [shr shr_m].
    replace (e + -51 + 51) with e by lia.
    destruct (Z.leb_spec e (1024 - 53)); [reflexivity | lia].
Qed.

(** [a * 2] is exactly twice [a] for every binary64 value below the top
    binade: no rounding takes place. *)
Lemma mul_two_exact (a : float) (n : Z) :
  valid a = true -> below_top a = true ->
  numerator a = Some n ->
  numerator (mul a (of_int 2)) = Some (2 * n).
Proof.
  change (of_int 2) with two.
  destruct a as [s | s | | s m e];
    cbn [valid valid_binary below_top numerator]; try discriminate.
  - intros _ _ [= <-]. reflexivity.
  - intros Hv Hb [= <-].
    rewrite (mul_two_finite s m e Hv Hb).
    unfold bounded, canonical_mantissa, fexp, emin, prec, emax in Hv.
    rewrite andb_true_iff, Z.eqb_eq, Z.leb_le in Hv.
    destruct (Z.eqb_spec (Zpos (digits2_pos m)) prec) as [Hd | Hd];
      unfold numerator, scale.
    + replace (e + 1 + 1074) with (Z.succ (e + 1074)) by lia.
      rewrite Z.pow_succ_r by lia.
      f_equal. ring.
    + f_equal. rewrite Pos2Z.inj_xO. ring.
Qed.

End Doubling.

(** ** The dispatch step *)

Section Dispatch.

Lemma comprehension_var_none {A} (l : list A) :
  comprehension_var l = None <-> l = [].
Proof.
  induction l as [|a [|b l] IH]; simpl.
  - tauto.
  - split; discriminate.
  - rewrite IH. split; discriminate.
Qed.

Lemma published_app (l1 l2 : list event) :
  published (l1 ++ l2) = published l1 ++ published l2.
Proof.
  induction l1 as [|e l1 IH]; [reflexivity |].
  destruct e; simpl; rewrite IH; reflexivity.
Qed.

Lemma decoded_buffers_app (l1 l2 : list event) :
  decoded_buffers (l1 ++ l2) = decoded_buffers l1 ++ decoded_buffers l2.
Proof.
  induction l1 as [|e l1 IH]; [reflexivity |].
  destruct e; simpl; rewrite IH; reflexivity.
Qed.

Lemma published_diagnostics (d : decoded) : published (diagnostics d) = [].
Proof. unfold diagnostics. destruct (hyp d); reflexivity. Qed.

Lemma decoded_buffers_diagnostics (d : decoded) :
  decoded_buffers (diagnostics d) = [].
Proof. unfold diagnostics. destruct (hyp d); reflexivity. Qed.

(** Without a hypothesis the step is the publish alone. *)
Lemma parse_asr_result_quiet (d : decoded) (w : world) :
  hyp d = None ->
  parse_asr_result d w = (inr tt, logged w [publish (msg (self w))]).
Proof.
  intros H. unfold parse_asr_result. rewrite H. reflexivity.
Qed.

(** With a hypothesis and a segment the step returns, having applied
    lines 114-118 and published the command once, last. *)
Lemma parse_asr_result_returns (d : decoded) (w : world) :
  coherent d ->
  parse_asr_result d w
  = (inr tt,
     {| self := dispatch d (self w);
        ros := ros w;
        log := log w ++ diagnostics d ++ [publish (msg (dispatch d (self w)))] |}).
Proof.
  intros Hc. destruct w as [s r l].
  unfold coherent in Hc.
  unfold parse_asr_result, dispatch, full_speed_detected, diagnostics.
  destruct (hyp d) as [h|] eqn:Hh; [| reflexivity].
  destruct (comprehension_var (seg d)) as [seg0|] eqn:Hs.
  - cbv [bind emit ret get_self put_self set_msg set_speed self ros log].
    destruct (PyStr.find (PyStr.lower (word seg0)) full_speed >? -1);
      [destruct (PyFloat.eqb (speed s) PyFloat.lit_0_2) |];
      cbn [andb speed msg]; repeat rewrite <- app_assoc; reflexivity.
  - apply comprehension_var_none in Hs. exfalso. apply Hc; [discriminate | exact Hs].
Qed.

(** With a hypothesis and no segment, [seg] is unbound at line 110. *)
Lemma parse_asr_result_raises (d : decoded) (w : world) :
  hyp d <> None -> seg d = [] ->
  parse_asr_result d w
  = (inl (UnboundLocalError "seg"),
     logged w [print_segs []; print "Detected keyphrase, restarting search"]).
Proof.
  intros Hh Hs. destruct w as [s r l].
  unfold parse_asr_result. rewrite Hs.
  destruct (hyp d); [| congruence].
  cbv [bind emit raise comprehension_var map logged self ros log].
  rewrite <- app_assoc. reflexivity.
Qed.

Lemma coherent_dec (d : decoded) :
  coherent d \/ (hyp d <> None /\ seg d = []).
Proof.
  unfold coherent. destruct (hyp d); [| left; congruence].
  destruct (seg d); [right; split; congruence | left; congruence].
Qed.

(** Whatever the decoder answers, the attributes after the step are those
    of lines 114-118, and the node is untouched. *)
Lemma parse_asr_result_self (d : decoded) (w : world) :
  self (snd (parse_asr_result d w)) = dispatch d (self w)
  /\ ros (snd (parse_asr_result d w)) = ros w.
Proof.
  destruct (coherent_dec d) as [Hc | [Hh Hs]].
  - rewrite parse_asr_result_returns by exact Hc. split; reflexivity.
  - rewrite parse_asr_result_raises by assumption.
    unfold dispatch, full_speed_detected. rewrite Hs.
    destruct (hyp d); split; reflexivity.
Qed.

Lemma dispatch_elevated (d : decoded) (s : ASRControl) :
  speed s = PyFloat.lit_0_4 -> dispatch d s = s.
Proof.
  intros H. unfold dispatch. rewrite H.
  rewrite andb_false_r. reflexivity.
Qed.

Lemma dispatch_not_detected (d : decoded) (s : ASRControl) :
  full_speed_detected d = false -> dispatch d s = s.
Proof. intros H. unfold dispatch. rewrite H. reflexivity. Qed.

Lemma dispatch_baseline (d : decoded) (s : ASRControl) :
  full_speed_detected d = true -> speed s = PyFloat.lit_0_2 ->
  dispatch d s = {| speed := PyFloat.lit_0_4; msg := doubled (msg s) |}.
Proof. intros Hd Hs. unfold dispatch. rewrite Hd, Hs. reflexivity. Qed.

Lemma detected_coherent (d : decoded) :
  full_speed_detected d = true -> coherent d.
Proof.
  unfold full_speed_detected, coherent. intros H _ Hs.
  rewrite Hs in H. destruct (hyp d); discriminate.
Qed.

End Dispatch.

(** ** The node lifecycle *)

Section Lifecycle.

(** The first [signal_shutdown] runs [shutdown] once and disarms the node. *)
Lemma signal_shutdown_armed (w : world) :
  armed (ros w) ->
  rospy.signal_shutdown call_hook w
  = (inr tt,
     {| self := self w; ros := shut_down; log := log w ++ shutdown_events |}).
Proof.
  destruct w as [s [f hs] l]. intros [Hf Hh]. simpl in Hf, Hh. subst f hs.
  cbv [rospy.signal_shutdown bind get_ros ret put_ros for_each try_ call_hook
       shutdown emit ros self log shutdown_flag client_shutdown_hooks
       shutdown_events shut_down].
  repeat rewrite <- app_assoc. reflexivity.
Qed.

(** Every later one does nothing. *)
Lemma signal_shutdown_again (w : world) :
  shutdown_flag (ros w) = true ->
  rospy.signal_shutdown call_hook w = (inr tt, w).
Proof.
  intros H. unfold rospy.signal_shutdown, bind, get_ros. rewrite H. reflexivity.
Qed.

End Lifecycle.

(** ** The loop *)

Section Loop.

Lemma logged_logged (w : world) (es1 es2 : list event) :
  logged (logged w es1) es2 = logged w (es1 ++ es2).
Proof. unfold logged. cbn [self ros log]. rewrite app_assoc. reflexivity. Qed.

Lemma is_shutdown_flag (w : world) :
  rospy.is_shutdown w = (inr (shutdown_flag (ros w)), w).
Proof. reflexivity. Qed.

(** With the node up and no interrupt, a pass is the body of the loop. *)
Lemma iteration_body (c : cycle) (w : world) :
  shutdown_flag (ros w) = false -> sigint c = NoSignal ->
  iteration c w
  = match audio c with
    | ReadError => (inl IOError, logged w [stream_read 1024])
    | Data [] => (inr (Some EndOfStream), logged w [stream_read 1024])
    | Data (b :: bs) =>
        match parse_asr_result (decoder c)
                (logged w [stream_read 1024; process_raw (b :: bs)]) with
        | (inl e, w') => (inl e, w')
        | (inr _, w') => (inr None, w')
        end
    end.
Proof.
  intros Hf Hs. unfold iteration, handle_sigint. rewrite Hs.
  unfold bind at 1. cbn [ret].
  unfold bind at 1. rewrite is_shutdown_flag, Hf.
  destruct (audio c) as [[|b bs] |]; try reflexivity.
  unfold bind, emit, ret, logged. cbn [self ros log].
  rewrite <- app_assoc. reflexivity.
Qed.

(** With the node armed and the interrupt arriving during the read, the
    handler has run [shutdown] when the rest of the body starts. *)
Lemma iteration_interrupted_read (c : cycle) (w : world) :
  armed (ros w) -> sigint c = AsReadReturns ->
  iteration c w
  = match audio c with
    | ReadError => (inl IOError, after_read c w)
    | Data [] => (inr (Some EndOfStream), after_read c w)
    | Data (b :: bs) =>
        match parse_asr_result (decoder c)
                (logged (after_read c w) [process_raw (b :: bs)]) with
        | (inl e, w') => (inl e, w')
        | (inr _, w') => (inr None, w')
        end
    end.
Proof.
  intros Ha Hs. unfold iteration, handle_sigint, after_read. rewrite Hs.
  unfold bind at 1. cbn [ret].
  unfold bind at 1. rewrite is_shutdown_flag, (proj1 Ha).
  unfold bind at 1. unfold emit at 1.
  unfold bind at 1.
  rewrite signal_shutdown_armed by exact Ha.
  cbn [self ros log].
  replace ((log w ++ [stream_read 1024]) ++ shutdown_events)
    with (log w ++ stream_read 1024 :: shutdown_events)
    by (rewrite <- app_assoc; reflexivity).
  destruct (audio c) as [[|b bs] |]; reflexivity.
Qed.

(** Either way, a pass that is entered is the rest of the body run from
    [after_read]. *)
Lemma iteration_entered (c : cycle) (w : world) :
  armed (ros w) -> sigint c <> AtLoopTest ->
  iteration c w
  = match audio c with
    | ReadError => (inl IOError, after_read c w)
    | Data [] => (inr (Some EndOfStream), after_read c w)
    | Data (b :: bs) =>
        match parse_asr_result (decoder c)
                (logged (after_read c w) [process_raw (b :: bs)]) with
        | (inl e, w') => (inl e, w')
        | (inr _, w') => (inr None, w')
        end
    end.
Proof.
  intros Ha Hs. destruct (sigint c) eqn:E; [| congruence |].
  - rewrite (iteration_body c w (proj1 Ha) E).
    unfold after_read. rewrite E.
    destruct (audio c) as [[|b bs] |]; try reflexivity.
    rewrite logged_logged. reflexivity.
  - rewrite (iteration_interrupted_read c w Ha E). reflexivity.
Qed.

Lemma after_read_self (c : cycle) (w : world) :
  self (after_read c w) = self w.
Proof. unfold after_read. destruct (sigint c); reflexivity. Qed.

Lemma iteration_pass_entered (c : cycle) (w : world) :
  armed (ros w) -> sigint c <> AtLoopTest ->
  pass c w (iteration c w).
Proof.
  intros Ha Hs. rewrite (iteration_entered c w Ha Hs).
  destruct (audio c) as [[|b bs] |] eqn:Hau.
  - apply pass_end_of_stream; assumption.
  - destruct (coherent_dec (decoder c)) as [Hc | [Hh Hz]].
    + rewrite parse_asr_result_returns by exact Hc.
      cbn [self ros log logged].
      rewrite <- app_assoc, after_read_self.
      apply (pass_data c w b bs); assumption.
    + rewrite parse_asr_result_raises by assumption.
      rewrite logged_logged.
      apply (pass_unbound c w b bs); assumption.
  - apply pass_read_error; assumption.
Qed.

Lemma iteration_pass (c : cycle) (w : world) :
  armed (ros w) \/ shutdown_flag (ros w) = true ->
  pass c w (iteration c w).
Proof.
  intros Hn.
  destruct (shutdown_flag (ros w)) eqn:Hf.
  - (* the node is already down *)
    unfold iteration, handle_sigint.
    destruct (sigint c); unfold bind at 1;
      try rewrite signal_shutdown_again by exact Hf;
      cbn [ret]; unfold bind; rewrite is_shutdown_flag, Hf;
      apply pass_down; exact Hf.
  - destruct Hn as [Ha | Hn]; [| discriminate].
    destruct (sigint c) eqn:Hs.
    + apply (iteration_pass_entered c w Ha). congruence.
    + (* the interrupt: rospy's handler runs before the loop test *)
      unfold iteration, handle_sigint. rewrite Hs. unfold bind at 1.
      rewrite signal_shutdown_armed by exact Ha.
      cbv [bind rospy.is_shutdown get_ros ret ros shut_down shutdown_flag].
      apply pass_interrupted; assumption.
    + apply (iteration_pass_entered c w Ha). congruence.
Qed.

Lemma loop_cons (c : cycle) (rest : list cycle) (w : world) :
  loop (c :: rest) w
  = match iteration c w with
    | (inr None, w') => loop rest w'
    | (inr (Some why), w') => (inr (Some why), w')
    | (inl e, w') => (inl e, w')
    end.
Proof.
  cbn [loop]. unfold bind.
  destruct (iteration c w) as [[e | [why |]] w']; reflexivity.
Qed.

Lemma loop_nil (w : world) :
  loop [] w
  = (inr (if shutdown_flag (ros w) then Some ShutdownObserved else None), w).
Proof. reflexivity. Qed.

(** Once the shutdown flag is up the loop ends at its next test. *)
Lemma loop_down (script : list cycle) (w : world) :
  shutdown_flag (ros w) = true ->
  loop script w = (inr (Some ShutdownObserved), w).
Proof.
  intros Hf. destruct script as [|c rest].
  - rewrite loop_nil, Hf. reflexivity.
  - rewrite loop_cons.
    pose proof (iteration_pass c w (or_intror Hf)) as P.
    inversion P as [Hf' E | [Ha _] _ E | [Ha _] _ _ E | [Ha _] _ _ E
                   | b bs [Ha _] _ _ _ E | b bs [Ha _] _ _ _ _ E];
      first [congruence | rewrite <- E; reflexivity].
Qed.

(** A loop that has not ended leaves the shutdown flag down. *)
Lemma loop_running_flag (script : list cycle) (w w' : world) :
  loop script w = (inr None, w') -> shutdown_flag (ros w') = false.
Proof.
  revert w; induction script as [|c rest IH]; intros w.
  - rewrite loop_nil. destruct (shutdown_flag (ros w)) eqn:Hf; [discriminate |].
    intros [= <-]. exact Hf.
  - rewrite loop_cons.
    destruct (iteration c w) as [[e | [why |]] w1]; try discriminate.
    apply IH.
Qed.

(** A script in two parts: the second part is consumed only if the loop
    is still running after the first. *)
Lemma loop_app (s1 s2 : list cycle) (w : world) :
  loop (s1 ++ s2) w
  = match loop s1 w with
    | (inr None, w') => loop s2 w'
    | r => r
    end.
Proof.
  revert w; induction s1 as [|c s1 IH]; intros w.
  - rewrite loop_nil. cbn [app].
    destruct (shutdown_flag (ros w)) eqn:Hf; [| reflexivity].
    apply loop_down. exact Hf.
  - rewrite <- app_comm_cons, !loop_cons.
    destruct (iteration c w) as [[e | [why |]] w']; try reflexivity.
    apply IH.
Qed.

(** An invariant of every pass is an invariant of the loop. *)
Lemma loop_invariant (Q : world -> Prop) :
  (forall c w r, Q w -> pass c w r -> Q (snd r)) ->
  (forall w, Q w -> armed (ros w) \/ shutdown_flag (ros w) = true) ->
  forall script w, Q w -> Q (snd (loop script w)).
Proof.
  intros Hstep Hnode script.
  induction script as [|c rest IH]; intros w HQ.
  - exact HQ.
  - rewrite loop_cons.
    pose proof (Hstep c w _ HQ (iteration_pass c w (Hnode w HQ))) as H.
    destruct (iteration c w) as [[e | [why |]] w']; simpl in H |- *; auto.
Qed.

End Loop.

(** ** The "full speed" keyword *)

Section FullSpeed.

Lemma hears_full_speed_detected (d : decoded) :
  hears_full_speed d <-> full_speed_detected d = true.
Proof.
  unfold hears_full_speed, full_speed_detected. split.
  - intros [h [seg0 [-> [-> Hc]]]]. apply find_contains. exact Hc.
  - destruct (hyp d) as [h|]; [| discriminate].
    destruct (comprehension_var (seg d)) as [seg0|]; [| discriminate].
    intros H. exists h, seg0. repeat split. apply find_contains. exact H.
Qed.

Lemma lit_0_4_not_baseline : PyFloat.eqb PyFloat.lit_0_4 PyFloat.lit_0_2 = false.
Proof. reflexivity. Qed.

Lemma doubled_fields (m : Twist) :
  x (linear (doubled m)) = PyFloat.mul (x (linear m)) (PyFloat.of_int 2)
  /\ y (linear (doubled m)) = y (linear m)
  /\ z (linear (doubled m)) = z (linear m)
  /\ x (angular (doubled m)) = x (angular m)
  /\ y (angular (doubled m)) = y (angular m)
  /\ z (angular (doubled m)) = PyFloat.mul (z (angular m)) (PyFloat.of_int 2).
Proof. repeat split. Qed.

(** The scenario of the specification: (0.5, 0.3) becomes (1.0, 0.6). *)
Example doubled_half_and_three_tenths :
  PyFloat.mul (PyFloat.literal 5 10) (PyFloat.of_int 2) = PyFloat.literal 10 10
  /\ PyFloat.mul (PyFloat.literal 3 10) (PyFloat.of_int 2) = PyFloat.literal 6 10.
Proof. split; vm_compute; reflexivity. Qed.

End FullSpeed.

(** C1: when parse_asr_result detects "full speed" while the speed mode is
    the baseline 0.2, it returns having published exactly one more command,
    the one it now holds; that command's linear.x and angular.z are the held
    ones multiplied by 2 (exactly twice their value for every binary64 number
    below the top binade), its other components are the held ones, and the
    speed mode is 0.4. *)
Theorem full_speed_doubles_held_command (d : decoded) (w : world) :
  hears_full_speed d ->
  speed (self w) = PyFloat.lit_0_2 ->
  exists w',
    parse_asr_result d w = (inr tt, w')
    /\ speed (self w') = PyFloat.lit_0_4
    /\ published (log w') = published (log w) ++ [msg (self w')]
    /\ x (linear (msg (self w')))
       = PyFloat.mul (x (linear (msg (self w)))) (PyFloat.of_int 2)
    /\ z (angular (msg (self w')))
       = PyFloat.mul (z (angular (msg (self w)))) (PyFloat.of_int 2)
    /\ (y (linear (msg (self w'))), z (linear (msg (self w'))))
       = (y (linear (msg (self w))), z (linear (msg (self w))))
    /\ (x (angular (msg (self w'))), y (angular (msg (self w'))))
       = (x (angular (msg (self w))), y (angular (msg (self w))))
    /\ (forall n,
          PyFloat.valid (x (linear (msg (self w)))) = true ->
          below_top (x (linear (msg (self w)))) = true ->
          PyFloat.numerator (x (linear (msg (self w)))) = Some n ->
          PyFloat.numerator (x (linear (msg (self w')))) = Some (2 * n))
    /\ (forall n,
          PyFloat.valid (z (angular (msg (self w)))) = true ->
          below_top (z (angular (msg (self w)))) = true ->
          PyFloat.numerator (z (angular (msg (self w)))) = Some n ->
          PyFloat.numerator (z (angular (msg (self w')))) = Some (2 * n)).
Proof.
  intros Hd Hs. apply hears_full_speed_detected in Hd.
  eexists. split.
  - apply parse_asr_result_returns, detected_coherent, Hd.
  - cbn [self log]. rewrite (dispatch_baseline d (self w) Hd Hs). cbn [speed msg].
    rewrite !published_app, published_diagnostics. cbn [published app].
    destruct (doubled_fields (msg (self w))) as [Hx [Hy [Hz [Ax [Ay Az]]]]].
    rewrite Hx, Hy, Hz, Ax, Ay, Az.
    repeat split; try reflexivity.
    + intros n Hv Hb Hn. apply mul_two_exact; assumption.
    + intros n Hv Hb Hn. apply mul_two_exact; assumption.
Qed.

Lemma full_speed_doubles_held_command_witness :
  hears_full_speed heard_full_speed
  /\ speed (self (holding half_and_three_tenths)) = PyFloat.lit_0_2
  /\ exists w',
       parse_asr_result heard_full_speed (holding half_and_three_tenths)
       = (inr tt, w')
       /\ speed (self w') = PyFloat.lit_0_4
       /\ published (log w') = [msg (self w')]
       /\ x (linear (msg (self w')))
          = PyFloat.mul (PyFloat.literal 5 10) (PyFloat.of_int 2)
       /\ z (angular (msg (self w')))
          = PyFloat.mul (PyFloat.literal 3 10) (PyFloat.of_int 2).
Proof.
  assert (hears_full_speed heard_full_speed) as Hd.
  { exists {| hypstr := "FULL SPEED"; best_score := 0; hyp_prob := 0 |},
      (segment "FULL SPEED").
    repeat split. exists ""%string, ""%string. reflexivity. }
  split; [exact Hd |]. split; [reflexivity |].
  destruct (full_speed_doubles_held_command heard_full_speed
              (holding half_and_three_tenths) Hd eq_refl)
    as [w' [H1 [H2 [H3 [H4 [H5 _]]]]]].
  exists w'. repeat split; assumption.
Defined.

(** C2: a "full speed" detection while the speed mode is already 0.4 leaves
    command and mode as they are and republishes the held command; so two
    detections in a row from the baseline end in the state the first one
    left, the second publishing what the first published. *)
Theorem full_speed_not_doubled_again (d1 d2 : decoded) (w : world) :
  hears_full_speed d1 -> hears_full_speed d2 ->
  (speed (self w) = PyFloat.lit_0_4 ->
   exists w',
     parse_asr_result d1 w = (inr tt, w')
     /\ self w' = self w
     /\ published (log w') = published (log w) ++ [msg (self w)])
  /\ (speed (self w) = PyFloat.lit_0_2 ->
      exists w1 w2,
        parse_asr_result d1 w = (inr tt, w1)
        /\ parse_asr_result d2 w1 = (inr tt, w2)
        /\ self w2 = self w1
        /\ published (log w2)
           = published (log w) ++ [msg (self w1); msg (self w1)]).
Proof.
  intros H1 H2.
  apply hears_full_speed_detected in H1, H2.
  pose proof (detected_coherent d1 H1) as C1.
  pose proof (detected_coherent d2 H2) as C2.
  split; intros Hs.
  - eexists. split; [apply parse_asr_result_returns, C1 |].
    cbn [self log]. rewrite (dispatch_elevated d1 (self w) Hs).
    rewrite !published_app, published_diagnostics. split; reflexivity.
  - eexists. eexists.
    split; [apply parse_asr_result_returns, C1 |].
    split; [apply parse_asr_result_returns, C2 |].
    cbn [self log].
    rewrite (dispatch_baseline d1 (self w) H1 Hs).
    rewrite dispatch_elevated by reflexivity.
    rewrite !published_app, !published_diagnostics. cbn [published app msg].
    rewrite <- app_assoc. split; reflexivity.
Qed.

Lemma full_speed_not_doubled_again_witness :
  hears_full_speed heard_full_speed
  /\ speed (self (holding half_and_three_tenths)) = PyFloat.lit_0_2
  /\ exists w1 w2,
       parse_asr_result heard_full_speed (holding half_and_three_tenths)
       = (inr tt, w1)
       /\ parse_asr_result heard_full_speed w1 = (inr tt, w2)
       /\ self w2 = self w1
       /\ published (log w2) = [msg (self w1); msg (self w1)].
Proof.
  assert (hears_full_speed heard_full_speed) as Hd.
  { exists {| hypstr := "FULL SPEED"; best_score := 0; hyp_prob := 0 |},
      (segment "FULL SPEED").
    repeat split. exists ""%string, ""%string. reflexivity. }
  split; [exact Hd |]. split; [reflexivity |].
  apply (proj2 (full_speed_not_doubled_again heard_full_speed heard_full_speed
                  (holding half_and_three_tenths) Hd Hd)).
  reflexivity.
Defined.

(** ** Runs of the loop *)

Section Runs.

Lemma diagnostics_no_loginfo (d : decoded) (s : string) :
  ~ In (loginfo s) (diagnostics d).
Proof.
  unfold diagnostics. destruct (hyp d); simpl; intuition discriminate.
Qed.

Lemma shutdown_events_published : published shutdown_events = [Twist_new].
Proof. reflexivity. Qed.

(** The log of a run from an armed node.  Either [shutdown] has not run and
    the node is still armed, or it has run once: after it comes at most what
    was left of the iteration whose read the interrupt fell into, and the
    loop has ended. *)
Lemma loop_log (script : list cycle) (w : world) :
  armed (ros w) ->
  (armed (ros (snd (loop script w)))
   /\ fst (loop script w) <> inr (Some ShutdownObserved)
   /\ exists es,
        log (snd (loop script w)) = log w ++ es
        /\ ~ In (loginfo "Stop ASRControl") es)
  \/ (ros (snd (loop script w)) = shut_down
      /\ fst (loop script w) <> inr None
      /\ exists es tail,
           log (snd (loop script w)) = log w ++ es ++ shutdown_events ++ tail
           /\ ~ In (loginfo "Stop ASRControl") es
           /\ ~ In (loginfo "Stop ASRControl") tail
           /\ (published tail = []
               \/ published tail = [msg (self (snd (loop script w)))])
           /\ (Forall (fun c => sigint c <> AsReadReturns) script -> tail = [])).
Proof.
  revert w; induction script as [|c rest IH]; intros w Ha.
  - left. rewrite loop_nil, (proj1 Ha). cbn [fst snd].
    split; [exact Ha |]. split; [discriminate |].
    exists []. split; [rewrite app_nil_r; reflexivity | intros []].
  - rewrite loop_cons.
    pose proof (iteration_pass c w (or_introl Ha)) as P.
    inversion P as [Hf E | _ Hs E | _ Hs Hau E | _ Hs Hau E
                   | b bs _ Hs Hau Hc E | b bs _ Hs Hau Hh Hz E].
    + destruct Ha as [Ha _]. congruence.
    + (* interrupt at the loop test *)
      right. cbn [fst snd ros log].
      split; [reflexivity |]. split; [discriminate |].
      exists [], []. cbn [app]. rewrite app_nil_r.
      repeat split; auto.
    + (* end of stream *)
      unfold after_read. destruct (sigint c) eqn:Es; [| congruence |].
      * left. cbn [fst snd ros log logged].
        split; [exact Ha |]. split; [discriminate |].
        exists [stream_read 1024]. split; [reflexivity |].
        simpl. intuition discriminate.
      * right. cbn [fst snd ros log].
        split; [reflexivity |]. split; [discriminate |].
        exists [stream_read 1024], []. rewrite app_nil_r.
        split; [reflexivity |].
        split; [simpl; intuition discriminate |].
        split; [intros [] |]. split; [left; reflexivity |]. reflexivity.
    + (* the read raises *)
      unfold after_read. destruct (sigint c) eqn:Es; [| congruence |].
      * left. cbn [fst snd ros log logged].
        split; [exact Ha |]. split; [discriminate |].
        exists [stream_read 1024]. split; [reflexivity |].
        simpl. intuition discriminate.
      * right. cbn [fst snd ros log].
        split; [reflexivity |]. split; [discriminate |].
        exists [stream_read 1024], []. rewrite app_nil_r.
        split; [reflexivity |].
        split; [simpl; intuition discriminate |].
        split; [intros [] |]. split; [left; reflexivity |]. reflexivity.
    + (* a full pass of the body *)
      unfold after_read. destruct (sigint c) eqn:Es; [| congruence |].
      * cbn [ros log logged].
        match goal with
        | |- context [loop rest ?w1] => set (u := w1) in *
        end.
        destruct (IH u Ha) as [[Hr [Hx [es [Hl Hn]]]]
                              | [Hr [Hx [es [tail [Hl [Hn [Ht [Hp Hq]]]]]]]]].
        -- left. split; [exact Hr |]. split; [exact Hx |].
           exists ([stream_read 1024; process_raw (b :: bs)]
                   ++ diagnostics (decoder c)
                   ++ [publish (msg (dispatch (decoder c) (self w)))] ++ es).
           split.
           ++ rewrite Hl. cbn [log u].
              repeat (rewrite <- ?app_assoc, <- ?app_comm_cons). reflexivity.
           ++ intros Hin.
              apply in_app_or in Hin. destruct Hin as [Hin | Hin];
                [simpl in Hin; intuition discriminate |].
              apply in_app_or in Hin. destruct Hin as [Hin | Hin];
                [exact (diagnostics_no_loginfo _ _ Hin) |].
              destruct Hin as [Hin | Hin]; [discriminate | exact (Hn Hin)].
        -- right. split; [exact Hr |]. split; [exact Hx |].
           exists ([stream_read 1024; process_raw (b :: bs)]
                   ++ diagnostics (decoder c)
                   ++ [publish (msg (dispatch (decoder c) (self w)))] ++ es),
             tail.
           split.
           ++ rewrite Hl. cbn [log u].
              repeat (rewrite <- ?app_assoc, <- ?app_comm_cons). reflexivity.
           ++ split.
              { intros Hin.
                apply in_app_or in Hin. destruct Hin as [Hin | Hin];
                  [simpl in Hin; intuition discriminate |].
                apply in_app_or in Hin. destruct Hin as [Hin | Hin];
                  [exact (diagnostics_no_loginfo _ _ Hin) |].
                destruct Hin as [Hin | Hin]; [discriminate | exact (Hn Hin)]. }
              split; [exact Ht |]. split; [exact Hp |].
              intros Hall. apply Hq. inversion Hall; assumption.
      * (* the interrupt fell into the read: the body finishes, the next
           test ends the loop *)
        cbn [ros log].
        rewrite loop_down by reflexivity.
        right. cbn [fst snd ros log self].
        split; [reflexivity |]. split; [discriminate |].
        exists [stream_read 1024],
          (process_raw (b :: bs)
           :: diagnostics (decoder c)
           ++ [publish (msg (dispatch (decoder c) (self w)))]).
        split; [rewrite <- !app_assoc; reflexivity |].
        split; [simpl; intuition discriminate |].
        split.
        { intros [Hin | Hin]; [discriminate |].
          apply in_app_or in Hin. destruct Hin as [Hin | Hin];
            [exact (diagnostics_no_loginfo _ _ Hin) |].
          destruct Hin as [Hin | []]. discriminate. }
        split.
        { right.
          change (process_raw (b :: bs) :: ?l) with ([process_raw (b :: bs)] ++ l).
          rewrite !published_app, published_diagnostics. reflexivity. }
        intros Hall. inversion Hall; congruence.
    + (* line 110 raises *)
      unfold after_read. destruct (sigint c) eqn:Es; [| congruence |].
      * left. cbn [fst snd ros log logged].
        split; [exact Ha |]. split; [discriminate |].
        eexists. split; [rewrite <- app_assoc; reflexivity |].
        simpl. intuition discriminate.
      * right. cbn [fst snd ros log logged].
        split; [reflexivity |]. split; [discriminate |].
        exists [stream_read 1024],
          [process_raw (b :: bs); print_segs [];
           print "Detected keyphrase, restarting search"].
        split; [rewrite <- !app_assoc; reflexivity |].
        split; [simpl; intuition discriminate |].
        split; [simpl; intuition discriminate |].
        split; [left; reflexivity |].
        intros Hall. inversion Hall; congruence.
Qed.

(** A loop that is still running has its node still armed. *)
Lemma loop_running_armed (script : list cycle) (w w' : world) :
  armed (ros w) ->
  loop script w = (inr None, w') ->
  armed (ros w').
Proof.
  intros Ha E.
  destruct (loop_log script w Ha) as [[Hr _] | [_ [Hx _]]];
    rewrite E in *; cbn [fst snd] in *; [exact Hr | congruence].
Qed.


Lemma init_started (a : args) (script : list cycle) :
  __init__ (model a) (lexicon a) (kwlist a) (rospub a) script boot
  = loop script (started a).
Proof. reflexivity. Qed.

Lemma started_armed (a : args) : armed (ros (started a)).
Proof. split; reflexivity. Qed.

End Runs.




(** The three ways out of the loop, each ending with the zero command. *)
Example exit_paths :
  let last3 (t : termination * world) :=
    (fst t, skipn (List.length (log (snd t)) - 3)%nat (log (snd t))) in
  last3 (at_exit (loop [hearing heard_full_speed; end_of_stream])
           (holding half_and_three_tenths))
  = (Exited (inr EndOfStream), shutdown_events)
  /\ last3 (at_exit (loop [hearing heard_full_speed; interrupt])
              (holding half_and_three_tenths))
     = (Exited (inr ShutdownObserved), shutdown_events)
  /\ last3 (at_exit (loop [hearing heard_full_speed; read_error])
              (holding half_and_three_tenths))
     = (Exited (inl IOError), shutdown_events).
Proof. repeat split. Qed.

(** C4: over any sequence of loop iterations in which the decoder reports
    no hypothesis, the loop keeps running with command and speed mode as
    they were, and each iteration logs its read, its decode and one publish
    of the command held at the start of the sequence, nothing else. *)
Theorem quiet_iterations_republish_command (script : list cycle) (w : world) :
  shutdown_flag (ros w) = false ->
  Forall (fun c => reads_data c /\ hyp (decoder c) = None) script ->
  exists w',
    loop script w = (inr None, w')
    /\ self w' = self w
    /\ log w'
       = log w
         ++ flat_map
              (fun c => [stream_read 1024;
                         process_raw (buffer c);
                         publish (msg (self w))])
              script
    /\ published (log w')
       = published (log w) ++ repeat (msg (self w)) (List.length script).
Proof.
  intros Hf Hq. revert w Hf.
  induction Hq as [|c rest [[Hs [b [bs Hau]]] Hh] _ IH]; intros w Hf.
  - exists w. rewrite loop_nil, Hf. cbn. rewrite !app_nil_r. auto.
  - rewrite loop_cons, (iteration_body c w Hf Hs), Hau.
    rewrite (parse_asr_result_quiet _ _ Hh), logged_logged.
    destruct (IH (logged w ([stream_read 1024; process_raw (b :: bs)]
                            ++ [publish (msg (self w))])) Hf)
      as [w' [Hrun [Hself [Hlog Hpub]]]].
    exists w'. split; [exact Hrun |]. split; [exact Hself |].
    cbn [logged self log] in Hlog, Hpub.
    rewrite published_app in Hpub. cbn [published app] in Hpub.
    split.
    + rewrite Hlog. cbn [flat_map]. unfold buffer at 2. rewrite Hau.
      rewrite <- !app_assoc. reflexivity.
    + rewrite Hpub. cbn [List.length repeat].
      rewrite <- app_assoc. reflexivity.
Qed.

Lemma quiet_iterations_republish_command_witness :
  shutdown_flag (ros (holding half_and_three_tenths)) = false
  /\ Forall (fun c => reads_data c /\ hyp (decoder c) = None)
       [hearing heard_nothing; hearing heard_nothing]
  /\ exists w',
       loop [hearing heard_nothing; hearing heard_nothing]
         (holding half_and_three_tenths)
       = (inr None, w')
       /\ self w' = self (holding half_and_three_tenths)
       /\ published (log w') = [half_and_three_tenths; half_and_three_tenths].
Proof.
  assert (Forall (fun c => reads_data c /\ hyp (decoder c) = None)
            [hearing heard_nothing; hearing heard_nothing]) as Hq
      by (repeat constructor; exists Byte.x00, []; reflexivity).
  split; [reflexivity |]. split; [exact Hq |].
  destruct (quiet_iterations_republish_command
              [hearing heard_nothing; hearing heard_nothing]
              (holding half_and_three_tenths) eq_refl Hq)
    as [w' [H1 [H2 [_ H4]]]].
  exists w'. repeat split; assumption.
Defined.

(** C6 (as amended): in a loop iteration whose read returns data the body
    never publishes more than once, and whenever the iteration returns it
    has decoded the buffer once and published exactly once, the command held
    when it ends; it returns whenever the decoder answers coherently.  The
    only other publish that falls into the iteration is the zero command of
    shutdown, before the decode, when the interrupt arrives during the
    read. *)
Theorem loop_body_publishes_once
  (c : cycle) (w : world) (b : Byte.byte) (bs : bytes) :
  armed (ros w) ->
  sigint c <> AtLoopTest ->
  audio c = Data (b :: bs) ->
  (exists ms,
     published (log (snd (iteration c w)))
     = published (log w)
       ++ match sigint c with AsReadReturns => [Twist_new] | _ => [] end
       ++ ms
     /\ (List.length ms <= 1)%nat)
  /\ (forall r w',
        iteration c w = (inr r, w') ->
        r = None
        /\ published (log w')
           = published (log w)
             ++ match sigint c with AsReadReturns => [Twist_new] | _ => [] end
             ++ [msg (self w')]
        /\ decoded_buffers (log w') = decoded_buffers (log w) ++ [b :: bs])
  /\ (coherent (decoder c) -> exists w', iteration c w = (inr None, w')).
Proof.
  intros Ha Hs Hau.
  rewrite (iteration_entered c w Ha Hs), Hau.
  assert (published (log (after_read c w))
          = published (log w)
            ++ match sigint c with AsReadReturns => [Twist_new] | _ => [] end)
    as Hp.
  { unfold after_read. destruct (sigint c); cbn [log logged];
      rewrite published_app; cbn [published shutdown_events];
      rewrite ?app_nil_r; reflexivity. }
  assert (decoded_buffers (log (after_read c w)) = decoded_buffers (log w)) as Hd.
  { unfold after_read. destruct (sigint c); cbn [log logged];
      rewrite decoded_buffers_app; cbn [decoded_buffers shutdown_events];
      rewrite ?app_nil_r; reflexivity. }
  destruct (coherent_dec (decoder c)) as [Hc | [Hh Hz]].
  - rewrite parse_asr_result_returns by exact Hc.
    cbn [fst snd self log logged].
    split; [| split].
    + exists [msg (dispatch (decoder c) (self (after_read c w)))].
      split; [| cbn; lia].
      rewrite !published_app, published_diagnostics, Hp.
      cbn [published app]. rewrite app_nil_r, <- !app_assoc. reflexivity.
    + intros r w' [= <- <-]. cbn [self log].
      split; [reflexivity |].
      rewrite !published_app, !decoded_buffers_app.
      rewrite published_diagnostics, decoded_buffers_diagnostics, Hp, Hd.
      cbn [published decoded_buffers app].
      rewrite !app_nil_r, <- !app_assoc. split; reflexivity.
    + intros _. eexists. reflexivity.
  - rewrite parse_asr_result_raises by assumption.
    cbn [fst snd self log logged].
    split; [| split].
    + exists []. split; [| cbn; lia].
      rewrite !published_app, Hp. cbn [published app].
      rewrite !app_nil_r. reflexivity.
    + intros r w' H. discriminate H.
    + intros Hc. exfalso. exact (Hc Hh Hz).
Qed.

Lemma loop_body_publishes_once_witness :
  armed (ros (holding half_and_three_tenths))
  /\ sigint (interrupted_read heard_full_speed) <> AtLoopTest
  /\ audio (interrupted_read heard_full_speed) = Data [Byte.x00]
  /\ coherent (decoder (interrupted_read heard_full_speed))
  /\ exists w',
       iteration (interrupted_read heard_full_speed)
         (holding half_and_three_tenths)
       = (inr None, w')
       /\ published (log w') = [Twist_new; msg (self w')]
       /\ decoded_buffers (log w') = [[Byte.x00]].
Proof.
  assert (armed (ros (holding half_and_three_tenths))) as Ha
      by (split; reflexivity).
  assert (coherent (decoder (interrupted_read heard_full_speed))) as Hc
      by (intros _; discriminate).
  split; [exact Ha |]. split; [discriminate |]. split; [reflexivity |].
  split; [exact Hc |].
  destruct (loop_body_publishes_once (interrupted_read heard_full_speed)
              (holding half_and_three_tenths) Byte.x00 []
              Ha ltac:(discriminate) eq_refl)
    as [_ [Hret Hcoh]].
  destruct (Hcoh Hc) as [w' Hrun].
  exists w'. split; [exact Hrun |].
  destruct (Hret None w' Hrun) as [_ [Hp Hd]].
  split; [exact Hp | exact Hd].
Defined.

(** C6 (as claimed) fails: an iteration whose read returns data while the
    interrupt arrives publishes twice, the zero command of shutdown as the
    read returns and then the command held, so the final publish of
    parse_asr_result is not the only publish that happens during the
    loop. *)
Lemma two_publishes_in_interrupted_iteration :
  audio (interrupted_read heard_nothing) = Data [Byte.x00]
  /\ iteration (interrupted_read heard_nothing) (holding half_and_three_tenths)
     = (inr None,
        {| self := self (holding half_and_three_tenths);
           ros := shut_down;
           log := [stream_read 1024;
                   loginfo "Stop ASRControl";
                   publish Twist_new;
                   sleep 1;
                   process_raw [Byte.x00];
                   publish half_and_three_tenths] |})
  /\ published
       (log (snd (iteration (interrupted_read heard_nothing)
                    (holding half_and_three_tenths))))
     = [Twist_new; half_and_three_tenths]
  /\ List.length
       (published
          (log (snd (iteration (interrupted_read heard_nothing)
                       (holding half_and_three_tenths)))))
     <> 1%nat.
Proof.
  split; [reflexivity |]. split; [reflexivity |]. split; [reflexivity |].
  discriminate.
Qed.

(** C7: when the read of an iteration returns no data, the loop ends there
    as end of stream, not as an exception; all the iteration adds to the
    world the previous iterations left is the read itself: nothing is
    decoded, dispatched or published for it, and the rest of the script is
    not consumed. *)
Theorem empty_read_ends_loop
  (pre rest : list cycle) (c : cycle) (w w1 : world) :
  loop pre w = (inr None, w1) ->
  shutdown_flag (ros w1) = false ->
  sigint c = NoSignal ->
  audio c = Data [] ->
  loop (pre ++ c :: rest) w
  = (inr (Some EndOfStream), logged w1 [stream_read 1024]).
Proof.
  intros Hpre Hf Hs Hau.
  rewrite loop_app, Hpre, loop_cons, (iteration_body c w1 Hf Hs), Hau.
  reflexivity.
Qed.

Lemma empty_read_ends_loop_witness :
  fst (loop [hearing heard_full_speed] (holding half_and_three_tenths)) = inr None
  /\ sigint end_of_stream = NoSignal
  /\ audio end_of_stream = Data []
  /\ loop ([hearing heard_full_speed] ++ end_of_stream :: [hearing heard_full_speed])
       (holding half_and_three_tenths)
     = (inr (Some EndOfStream),
        logged (snd (loop [hearing heard_full_speed] (holding half_and_three_tenths)))
          [stream_read 1024]).
Proof.
  repeat (split; [reflexivity |]).
  apply (empty_read_ends_loop [hearing heard_full_speed]
           [hearing heard_full_speed] end_of_stream
           (holding half_and_three_tenths));
    reflexivity.
Defined.

(** ** Invariants of the process *)

Section Invariants.

Lemma after_read_ros (c : cycle) (w : world) :
  ros (after_read c w) = ros w \/ ros (after_read c w) = shut_down.
Proof. unfold after_read. destruct (sigint c); auto. Qed.

Lemma after_read_published (c : cycle) (w : world) :
  published (log (after_read c w)) = published (log w)
  \/ published (log (after_read c w)) = published (log w) ++ [Twist_new].
Proof.
  unfold after_read. destruct (sigint c); cbn [log logged];
    rewrite published_app; cbn [published shutdown_events];
    rewrite ?app_nil_r; auto.
Qed.

Lemma pass_self (c : cycle) (w : world) (r : (exn + option loop_exit) * world) :
  pass c w r ->
  (self (snd r) = self w \/ self (snd r) = dispatch (decoder c) (self w))
  /\ (ros (snd r) = ros w \/ (armed (ros w) /\ ros (snd r) = shut_down)).
Proof.
  intros P. destruct P; cbn [snd self ros logged];
    rewrite ?after_read_self; auto;
    (split; [auto |]);
    destruct (after_read_ros c w) as [-> | ->]; auto.
Qed.

(** What a pass publishes: shutdown's zero command, the command held when
    the pass ends, both in that order, or nothing. *)
Lemma pass_published (c : cycle) (w : world) (r : (exn + option loop_exit) * world) :
  pass c w r ->
  exists ms,
    published (log (snd r)) = published (log w) ++ ms
    /\ Forall (fun m => m = Twist_new \/ m = msg (self (snd r))) ms.
Proof.
  intros P. destruct P; cbn [snd self log logged].
  - exists []. rewrite app_nil_r. split; [reflexivity | constructor].
  - exists [Twist_new]. rewrite published_app. split; [reflexivity |].
    constructor; [auto | constructor].
  - destruct (after_read_published c w) as [-> | ->].
    + exists []. rewrite app_nil_r. split; [reflexivity | constructor].
    + exists [Twist_new]. split; [reflexivity |].
      constructor; [auto | constructor].
  - destruct (after_read_published c w) as [-> | ->].
    + exists []. rewrite app_nil_r. split; [reflexivity | constructor].
    + exists [Twist_new]. split; [reflexivity |].
      constructor; [auto | constructor].
  - change (process_raw (b :: bs) :: ?l) with ([process_raw (b :: bs)] ++ l).
    rewrite !published_app, published_diagnostics. cbn [published app].
    destruct (after_read_published c w) as [-> | ->].
    + eexists. split; [reflexivity |].
      constructor; [auto | constructor].
    + eexists. rewrite <- app_assoc. split; [reflexivity |].
      constructor; [auto |]. constructor; [auto | constructor].
  - rewrite published_app. cbn [published]. rewrite app_nil_r.
    destruct (after_read_published c w) as [-> | ->].
    + exists []. rewrite app_nil_r. split; [reflexivity | constructor].
    + exists [Twist_new]. split; [reflexivity |].
      constructor; [auto | constructor].
Qed.

(** What every pass of the loop and the exit handler preserve holds when
    the process has run on any script. *)
Lemma at_exit_invariant (Q : world -> Prop) :
  (forall c w r, Q w -> pass c w r -> Q (snd r)) ->
  (forall w, Q w -> armed (ros w) \/ shutdown_flag (ros w) = true) ->
  forall script w, Q w -> Q (snd (at_exit (loop script) w)).
Proof.
  intros Hstep Hnode script w HQ.
  pose proof (loop_invariant Q Hstep Hnode script w HQ) as H1.
  unfold at_exit.
  destruct (loop script w) as [[e | [why |]] w1]; cbn [snd] in H1 |- *;
    try exact H1;
    (destruct (Hnode w1 H1) as [Ha | Hf];
     [ rewrite signal_shutdown_armed by exact Ha;
       exact (Hstep interrupt w1 _ H1 (pass_interrupted interrupt w1 Ha eq_refl))
     | rewrite signal_shutdown_again by exact Hf; exact H1 ]).
Qed.

Lemma node_after_pass (c : cycle) (w : world) (r : (exn + option loop_exit) * world) :
  pass c w r ->
  armed (ros w) \/ shutdown_flag (ros w) = true ->
  armed (ros (snd r)) \/ shutdown_flag (ros (snd r)) = true.
Proof.
  intros P Hn. destruct (pass_self c w r P) as [_ [-> | [_ ->]]]; auto.
Qed.

(** A property of the attributes that lines 114-118 preserve holds of the
    attributes after any run. *)
Lemma run_self_invariant (P : ASRControl -> Prop) :
  (forall d s, P s -> P (dispatch d s)) ->
  forall script w,
    armed (ros w) \/ shutdown_flag (ros w) = true ->
    P (self w) ->
    P (self (snd (at_exit (loop script) w))).
Proof.
  intros Hd script w Hn Hp.
  apply (at_exit_invariant
           (fun u => (armed (ros u) \/ shutdown_flag (ros u) = true) /\ P (self u)));
    [| tauto | tauto].
  intros c u r [Hu Hpu] Hpass. split.
  - exact (node_after_pass c u r Hpass Hu).
  - destruct (pass_self c u r Hpass) as [[-> | ->] _]; auto.
Qed.

Lemma main_started (a : args) (script : list cycle) :
  main a script = at_exit (loop script) (started a).
Proof. unfold main, at_exit. rewrite init_started. reflexivity. Qed.

Lemma doubled_zero : doubled Twist_new = Twist_new.
Proof. reflexivity. Qed.

Lemma dispatch_speed (d : decoded) (s : ASRControl) :
  speed (dispatch d s) = speed s \/ speed (dispatch d s) = PyFloat.lit_0_4.
Proof.
  unfold dispatch.
  destruct (full_speed_detected d && PyFloat.eqb (speed s) PyFloat.lit_0_2); auto.
Qed.

Lemma comprehension_var_last {A} (l : list A) (a : A) :
  comprehension_var (l ++ [a]) = Some a.
Proof.
  induction l as [|b l IH]; [reflexivity |].
  cbn [app comprehension_var]. rewrite IH.
  destruct (l ++ [a]) eqn:E; [destruct l; discriminate | reflexivity].
Qed.

(** The code's test looks at the last segment, whatever came before it. *)
Lemma full_speed_detected_last (h : hypothesis) (segs : list Segment) (s : Segment) :
  full_speed_detected {| hyp := Some h; seg := segs ++ [s] |}
  = (PyStr.find (PyStr.lower (word s)) full_speed >? -1).
Proof.
  unfold full_speed_detected. cbn [hyp seg].
  rewrite comprehension_var_last. reflexivity.
Qed.

End Invariants.

(** C5 (the code differs): with the keyphrases "full speed" and "forward"
    spotted in one window, the lower-cased text of the hypothesis contains
    "full speed", yet the code tests the word of the last segment only, finds
    nothing and leaves the speed mode at 0.2; with "full speed" as the only
    segment the same run ends at 0.4. *)
Theorem last_segment_decides_dispatch :
  hypothesis_mentions_full_speed heard_full_speed_then_forward = true
  /\ full_speed_detected heard_full_speed_then_forward = false
  /\ speed (self (snd (main default_args [hearing heard_full_speed_then_forward])))
     = PyFloat.lit_0_2
  /\ speed (self (snd (main default_args [hearing heard_full_speed])))
     = PyFloat.lit_0_4.
Proof. repeat split. Qed.

(** C8: after any run of the process, on any script and however far it got,
    the speed mode is 0.2 or 0.4, two different values. *)
Theorem speed_mode_two_valued (a : args) (script : list cycle) :
  (speed (self (snd (main a script))) = PyFloat.lit_0_2
   \/ speed (self (snd (main a script))) = PyFloat.lit_0_4)
  /\ PyFloat.lit_0_2 <> PyFloat.lit_0_4.
Proof.
  split; [| discriminate].
  rewrite main_started.
  apply (run_self_invariant
           (fun s => speed s = PyFloat.lit_0_2 \/ speed s = PyFloat.lit_0_4)).
  - intros d s Hs. destruct (dispatch_speed d s) as [-> | ->]; auto.
  - left. apply started_armed.
  - left. reflexivity.
Qed.

(** C9: in the code as written every command published by the process, on
    any script, is the zero command, and the command held stays zero. *)
Theorem only_zero_commands_published (a : args) (script : list cycle) :
  Forall (fun m => m = Twist_new) (published (log (snd (main a script))))
  /\ msg (self (snd (main a script))) = Twist_new
  /\ PyFloat.mul PyFloat.zero (PyFloat.of_int 2) = PyFloat.zero.
Proof.
  rewrite main_started.
  pose (Q := fun u : world =>
               (armed (ros u) \/ shutdown_flag (ros u) = true)
               /\ msg (self u) = Twist_new
               /\ Forall (fun m => m = Twist_new) (published (log u))).
  assert (Q (snd (at_exit (loop script) (started a)))) as [_ [Hm Hp]].
  { apply at_exit_invariant.
    - intros c u r [Hn [Hm Hp]] Hpass.
      assert (msg (self (snd r)) = Twist_new) as Hm'.
      { destruct (pass_self c u r Hpass) as [[-> | ->] _]; [exact Hm |].
        unfold dispatch.
        destruct (full_speed_detected (decoder c)
                  && PyFloat.eqb (speed (self u)) PyFloat.lit_0_2);
          [cbn [msg]; rewrite Hm; apply doubled_zero | exact Hm]. }
      split; [exact (node_after_pass c u r Hpass Hn) |].
      split; [exact Hm' |].
      destruct (pass_published c u r Hpass) as [ms [-> Hms]].
      apply Forall_app. split; [exact Hp |].
      apply (Forall_impl _ (P := fun m => m = Twist_new \/ m = msg (self (snd r))));
        [| exact Hms].
      intros m [-> | ->]; [reflexivity | exact Hm'].
    - intros u [Hn _]. exact Hn.
    - split; [left; apply started_armed |].
      split; [reflexivity | constructor]. }
  repeat split; assumption.
Qed.

(** C10: once a run of the process has the speed mode at 0.4, every longer
    run has it at 0.4, which is not the baseline: the mode never returns to
    0.2. *)
Theorem speed_mode_never_returns (a : args) (s1 s2 : list cycle) :
  speed (self (snd (main a s1))) = PyFloat.lit_0_4 ->
  speed (self (snd (main a (s1 ++ s2)))) = PyFloat.lit_0_4
  /\ PyFloat.eqb PyFloat.lit_0_4 PyFloat.lit_0_2 = false.
Proof.
  intros H. split; [| reflexivity].
  revert H. rewrite !main_started.
  unfold at_exit at 1 2. rewrite loop_app.
  destruct (loop s1 (started a)) as [[e | [why |]] w1] eqn:E; try (intros H; exact H).
  cbn [snd]. intros H.
  change (speed (self (snd (at_exit (loop s2) w1))) = PyFloat.lit_0_4).
  apply (run_self_invariant (fun s => speed s = PyFloat.lit_0_4)).
  - intros d s Hs. rewrite dispatch_elevated; assumption.
  - left. exact (loop_running_armed s1 (started a) w1 (started_armed a) E).
  - exact H.
Qed.

Lemma speed_mode_never_returns_witness :
  speed (self (snd (main default_args [hearing heard_full_speed])))
  = PyFloat.lit_0_4
  /\ speed (self (snd (main default_args
                         ([hearing heard_full_speed]
                          ++ [hearing heard_full_speed; hearing heard_nothing]))))
     = PyFloat.lit_0_4.
Proof.
  split; [reflexivity |].
  apply (speed_mode_never_returns default_args [hearing heard_full_speed]
           [hearing heard_full_speed; hearing heard_nothing]).
  reflexivity.
Defined.

(** * Further properties of the code *)

(** ** The keyword test *)

Section KeywordTest.

Lemma lower_app (s1 s2 : string) :
  PyStr.lower (s1 ++ s2) = (PyStr.lower s1 ++ PyStr.lower s2)%string.
Proof.
  induction s1 as [|c s1 IH]; [reflexivity |].
  simpl. rewrite IH. reflexivity.
Qed.

Lemma comprehension_var_some {A} (l : list A) (a : A) :
  comprehension_var l = Some a <-> exists l', l = l' ++ [a].
Proof.
  split.
  - induction l as [|b [|c l] IH]; simpl.
    + discriminate.
    + intros [= ->]. exists []. reflexivity.
    + intros H. destruct (IH H) as [l' E]. exists (b :: l').
      rewrite E. reflexivity.
  - intros [l' ->]. apply comprehension_var_last.
Qed.

(** The test of line 114 in terms of the segments [seg()] iterated over. *)
Lemma detected_last_segment (d : decoded) :
  full_speed_detected d = true
  <-> exists h segs seg0,
        hyp d = Some h
        /\ seg d = segs ++ [seg0]
        /\ PyStr.contains (PyStr.lower (word seg0)) full_speed.
Proof.
  rewrite <- hears_full_speed_detected. unfold hears_full_speed. split.
  - intros [h [seg0 [Hh [Hs Hc]]]].
    apply comprehension_var_some in Hs. destruct Hs as [segs Hs].
    exists h, segs, seg0. auto.
  - intros [h [segs [seg0 [Hh [Hs Hc]]]]].
    exists h, seg0. repeat split; try assumption.
    apply comprehension_var_some. exists segs. exact Hs.
Qed.

Lemma dispatch_mode_rises (d : decoded) (s : ASRControl) :
  speed s = PyFloat.lit_0_2 ->
  (speed (dispatch d s) = PyFloat.lit_0_4 <-> full_speed_detected d = true).
Proof.
  intros Hs. unfold dispatch. rewrite Hs.
  destruct (full_speed_detected d); cbn [andb speed].
  - change (PyFloat.eqb PyFloat.lit_0_2 PyFloat.lit_0_2) with true.
    cbn [speed]. tauto.
  - rewrite Hs. split; discriminate.
Qed.

End KeywordTest.

(** X3: a hypothesis whose last segment does not contain "full speed" in
    its lower-cased word changes neither the command nor the speed mode: the
    step prints its diagnostics, restarts the utterance and publishes the
    command as it was held. *)
Theorem other_keywords_change_nothing
  (d : decoded) (w : world) (h : hypothesis)
  (segs : list Segment) (seg0 : Segment) :
  hyp d = Some h ->
  seg d = segs ++ [seg0] ->
  ~ PyStr.contains (PyStr.lower (word seg0)) full_speed ->
  parse_asr_result d w
  = (inr tt,
     {| self := self w;
        ros := ros w;
        log := log w
               ++ [print_segs
                     (map (fun seg => (word seg, prob seg, start_frame seg, end_frame seg))
                          (seg d));
                   print "Detected keyphrase, restarting search";
                   end_utt;
                   start_utt;
                   publish (msg (self w))] |}).
Proof.
  intros Hh Hs Hn.
  assert (full_speed_detected d = false) as Hd.
  { destruct (full_speed_detected d) eqn:E; [| reflexivity].
    apply detected_last_segment in E.
    destruct E as [h' [segs' [seg1 [_ [Hs' Hc]]]]].
    rewrite Hs in Hs'. apply app_inj_tail in Hs'. destruct Hs' as [_ ->].
    contradiction. }
  rewrite parse_asr_result_returns.
  - rewrite (dispatch_not_detected d (self w) Hd).
    unfold diagnostics. rewrite Hh. reflexivity.
  - intros _. rewrite Hs. destruct segs; discriminate.
Qed.

Lemma other_keywords_change_nothing_witness :
  hyp heard_stop = Some {| hypstr := "stop"; best_score := 0; hyp_prob := 0 |}
  /\ seg heard_stop = [] ++ [segment "stop"]
  /\ ~ PyStr.contains (PyStr.lower (word (segment "stop"))) full_speed
  /\ self (snd (parse_asr_result heard_stop (holding half_and_three_tenths)))
     = self (holding half_and_three_tenths)
  /\ published (log (snd (parse_asr_result heard_stop
                             (holding half_and_three_tenths))))
     = [half_and_three_tenths].
Proof.
  assert (~ PyStr.contains (PyStr.lower (word (segment "stop"))) full_speed) as Hn.
  { intros Hc. apply find_contains in Hc. discriminate Hc. }
  split; [reflexivity |]. split; [reflexivity |]. split; [exact Hn |].
  rewrite (other_keywords_change_nothing heard_stop
             (holding half_and_three_tenths)
             {| hypstr := "stop"; best_score := 0; hyp_prob := 0 |}
             [] (segment "stop") eq_refl eq_refl Hn).
  split; reflexivity.
Defined.

(** X4: from the baseline, the dispatch step leaves the speed mode at 0.4
    exactly when the decoder reports a hypothesis and the lower-cased word of
    the last segment it iterated over contains "full speed"; in every other
    case, the raising one included, the mode is not raised. *)
Theorem mode_rises_exactly_on_full_speed (d : decoded) (w : world) :
  speed (self w) = PyFloat.lit_0_2 ->
  (speed (self (snd (parse_asr_result d w))) = PyFloat.lit_0_4
   <-> exists h segs seg0,
         hyp d = Some h
         /\ seg d = segs ++ [seg0]
         /\ PyStr.contains (PyStr.lower (word seg0)) full_speed).
Proof.
  intros Hs.
  rewrite (proj1 (parse_asr_result_self d w)).
  rewrite (dispatch_mode_rises d (self w) Hs).
  apply detected_last_segment.
Qed.

Lemma mode_rises_exactly_on_full_speed_witness :
  speed (self (holding half_and_three_tenths)) = PyFloat.lit_0_2
  /\ speed (self (snd (parse_asr_result heard_full_speed
                         (holding half_and_three_tenths))))
     = PyFloat.lit_0_4
  /\ exists h segs seg0,
       hyp heard_full_speed = Some h
       /\ seg heard_full_speed = segs ++ [seg0]
       /\ PyStr.contains (PyStr.lower (word seg0)) full_speed.
Proof.
  split; [reflexivity |]. split; [reflexivity |].
  apply (proj1 (mode_rises_exactly_on_full_speed heard_full_speed
                  (holding half_and_three_tenths) eq_refl)).
  reflexivity.
Defined.

(** X5: the keyword is found in any letter case and anywhere in the word:
    when the last segment's word is [pre ++ k ++ post] and [k] lower-cases to
    "full speed", the step raises the baseline mode to 0.4 and publishes the
    doubled command. *)
Theorem full_speed_in_any_case
  (h : hypothesis) (segs : list Segment) (seg0 : Segment)
  (pre k post : string) (w : world) :
  word seg0 = (pre ++ k ++ post)%string ->
  PyStr.lower k = full_speed ->
  speed (self w) = PyFloat.lit_0_2 ->
  exists w',
    parse_asr_result {| hyp := Some h; seg := segs ++ [seg0] |} w = (inr tt, w')
    /\ self w' = {| speed := PyFloat.lit_0_4; msg := doubled (msg (self w)) |}
    /\ published (log w') = published (log w) ++ [doubled (msg (self w))].
Proof.
  intros Hw Hk Hs.
  set (d := {| hyp := Some h; seg := segs ++ [seg0] |}).
  assert (full_speed_detected d = true) as Hd.
  { apply detected_last_segment. exists h, segs, seg0.
    repeat split. rewrite Hw, !lower_app, Hk.
    exists (PyStr.lower pre), (PyStr.lower post). reflexivity. }
  eexists. split.
  - apply parse_asr_result_returns, detected_coherent, Hd.
  - cbn [self log]. rewrite (dispatch_baseline d (self w) Hd Hs). cbn [msg].
    rewrite !published_app, published_diagnostics. split; reflexivity.
Qed.

Lemma full_speed_in_any_case_witness :
  word (segment "go Full SPEED now") = ("go " ++ "Full SPEED" ++ " now")%string
  /\ PyStr.lower "Full SPEED" = full_speed
  /\ speed (self (holding half_and_three_tenths)) = PyFloat.lit_0_2
  /\ exists w',
       parse_asr_result
         {| hyp := Some {| hypstr := "x"; best_score := 0; hyp_prob := 0 |};
            seg := [segment "left"] ++ [segment "go Full SPEED now"] |}
         (holding half_and_three_tenths)
       = (inr tt, w')
       /\ self w'
          = {| speed := PyFloat.lit_0_4; msg := doubled half_and_three_tenths |}
       /\ published (log w') = [doubled half_and_three_tenths].
Proof.
  repeat (split; [reflexivity |]).
  apply (full_speed_in_any_case
           {| hypstr := "x"; best_score := 0; hyp_prob := 0 |}
           [segment "left"] (segment "go Full SPEED now")
           "go " "Full SPEED" " now" (holding half_and_three_tenths));
    reflexivity.
Defined.

(** ** Whole runs *)

Section WholeRuns.

(** What a pass of the loop adds to the log: nothing, shutdown alone, or
    the read (with shutdown, when the interrupt fell into it) followed by
    what the rest of the body logs. *)
Lemma pass_appends (c : cycle) (w : world) (r : (exn + option loop_exit) * world) :
  pass c w r ->
  exists es,
    log (snd r) = log w ++ es
    /\ (es = []
        \/ es = shutdown_events
        \/ exists pre body,
             es = pre ++ body
             /\ (pre = [stream_read 1024]
                 \/ pre = stream_read 1024 :: shutdown_events)
             /\ (body = []
                 \/ (exists buf m,
                       body = [process_raw buf]
                              ++ diagnostics (decoder c) ++ [publish m])
                 \/ (exists buf,
                       body = [process_raw buf; print_segs [];
                               print "Detected keyphrase, restarting search"]))).
Proof.
  assert (exists pre,
             log (after_read c w) = log w ++ pre
             /\ (pre = [stream_read 1024]
                 \/ pre = stream_read 1024 :: shutdown_events))
    as [pre [Hpre Hshape]].
  { unfold after_read. destruct (sigint c); cbn [log logged]; eauto. }
  intros P. destruct P; cbn [snd log logged].
  - exists []. rewrite app_nil_r. auto.
  - exists shutdown_events. auto.
  - exists (pre ++ []). rewrite app_nil_r. split; [exact Hpre |].
    right; right. exists pre, []. rewrite app_nil_r. auto.
  - exists (pre ++ []). rewrite app_nil_r. split; [exact Hpre |].
    right; right. exists pre, []. rewrite app_nil_r. auto.
  - eexists. rewrite Hpre, <- app_assoc. split; [reflexivity |].
    right; right. exists pre. eexists. split; [reflexivity |].
    split; [exact Hshape |]. right; left.
    eexists. eexists. reflexivity.
  - eexists. rewrite Hpre, <- app_assoc. split; [reflexivity |].
    right; right. exists pre. eexists. split; [reflexivity |].
    split; [exact Hshape |]. right; right.
    eexists. reflexivity.
Qed.

Lemma diagnostics_not_setup (d : decoded) :
  forallb (fun e => negb (is_setup e)) (diagnostics d) = true.
Proof. unfold diagnostics. destruct (hyp d); reflexivity. Qed.

Lemma pass_not_setup (c : cycle) (w : world) (r : (exn + option loop_exit) * world) :
  pass c w r ->
  exists es,
    log (snd r) = log w ++ es
    /\ forallb (fun e => negb (is_setup e)) es = true.
Proof.
  intros P. destruct (pass_appends c w r P) as [es [Hl Hs]].
  exists es. split; [exact Hl |].
  destruct Hs as [-> | [-> | [pre [body [-> [Hpre Hbody]]]]]];
    try reflexivity.
  rewrite forallb_app.
  destruct Hpre as [-> | ->];
    destruct Hbody as [-> | [[buf [m ->]] | [buf ->]]];
    rewrite ?forallb_app, ?diagnostics_not_setup; reflexivity.
Qed.

Lemma decoder_after_app (l1 l2 : list event) :
  decoder_after (l1 ++ l2) = fold_left decoder_step l2 (decoder_after l1).
Proof. unfold decoder_after. apply fold_left_app. Qed.

Lemma diagnostics_in_utterance (d : decoded) :
  fold_left decoder_step (diagnostics d) (Some InUtterance) = Some InUtterance.
Proof. unfold diagnostics. destruct (hyp d); reflexivity. Qed.

Lemma pass_in_utterance (c : cycle) (w : world) (r : (exn + option loop_exit) * world) :
  pass c w r ->
  decoder_after (log w) = Some InUtterance ->
  decoder_after (log (snd r)) = Some InUtterance.
Proof.
  intros P Hw. destruct (pass_appends c w r P) as [es [-> Hs]].
  rewrite decoder_after_app, Hw.
  destruct Hs as [-> | [-> | [pre [body [-> [Hpre Hbody]]]]]];
    try reflexivity.
  rewrite fold_left_app.
  assert (fold_left decoder_step pre (Some InUtterance) = Some InUtterance)
    as -> by (destruct Hpre as [-> | ->]; reflexivity).
  destruct Hbody as [-> | [[buf [m ->]] | [buf ->]]]; try reflexivity.
  rewrite !fold_left_app. cbn [fold_left decoder_step].
  rewrite diagnostics_in_utterance. reflexivity.
Qed.

(** A loop that is still running has gone through data passes only. *)
Lemma running_loop (script : list cycle) (w w' : world) :
  armed (ros w) ->
  loop script w = (inr None, w') ->
  armed (ros w')
  /\ decoded_buffers (log w') = decoded_buffers (log w) ++ map buffer script
  /\ List.length (published (log w'))
     = (List.length (published (log w)) + List.length script)%nat.
Proof.
  revert w; induction script as [|c rest IH]; intros w Ha.
  - rewrite loop_nil, (proj1 Ha). intros [= <-].
    cbn. rewrite app_nil_r. auto.
  - rewrite loop_cons.
    pose proof (iteration_pass c w (or_introl Ha)) as P.
    inversion P as [Hf E | _ Hs E | _ Hs Hau E | _ Hs Hau E
                   | b bs _ Hs Hau Hc E | b bs _ Hs Hau Hh Hz E];
      try discriminate.
    unfold after_read. destruct (sigint c) eqn:Es; [| congruence |].
    + (* no interrupt: the loop goes on from an armed node *)
      cbn [ros log logged].
      intros Hrun. apply IH in Hrun; [| exact Ha].
      cbn [log] in Hrun. destruct Hrun as [Ha' [Hd Hp]].
      split; [exact Ha' |].
      rewrite Hd, Hp.
      rewrite !decoded_buffers_app, !published_app.
      change (process_raw (b :: bs) :: ?l) with ([process_raw (b :: bs)] ++ l).
      rewrite !decoded_buffers_app, !published_app.
      rewrite decoded_buffers_diagnostics, published_diagnostics.
      cbn [map].
      replace (buffer c) with (b :: bs) by (unfold buffer; rewrite Hau; reflexivity).
      cbn [decoded_buffers published app List.length].
      rewrite !app_nil_r, <- app_assoc, !length_app. cbn [app List.length].
      split; [reflexivity | lia].
    + (* the interrupt fell into the read: the loop has ended *)
      cbn [ros log]. rewrite loop_down by reflexivity. discriminate.
Qed.

(** With the mode already raised, a run of coherent data passes republishes
    the held command. *)
Lemma loop_elevated (script : list cycle) (w : world) :
  shutdown_flag (ros w) = false ->
  speed (self w) = PyFloat.lit_0_4 ->
  Forall (fun c => reads_data c /\ coherent (decoder c)) script ->
  exists w',
    loop script w = (inr None, w')
    /\ self w' = self w
    /\ published (log w')
       = published (log w) ++ repeat (msg (self w)) (List.length script).
Proof.
  intros Hf Hs Hq. revert w Hf Hs.
  induction Hq as [|c rest [[Hi [b [bs Hau]]] Hc] _ IH]; intros w Hf Hs.
  - exists w. rewrite loop_nil, Hf. cbn. rewrite app_nil_r. auto.
  - rewrite loop_cons, (iteration_body c w Hf Hi), Hau.
    rewrite (parse_asr_result_returns _ _ Hc).
    cbn [self ros log logged].
    rewrite (dispatch_elevated (decoder c) (self w) Hs).
    match goal with
    | |- context [loop rest ?u] => destruct (IH u Hf Hs) as [w' [Hrun [Hself Hpub]]]
    end.
    cbn [self log] in Hself, Hpub.
    exists w'. split; [exact Hrun |]. split; [exact Hself |].
    rewrite Hpub.
    rewrite !published_app, published_diagnostics.
    cbn [published app List.length repeat].
    rewrite app_nil_r, <- app_assoc. reflexivity.
Qed.

Lemma mul_two_top (s : bool) (m : positive) :
  SpecFloat.bounded PyFloat.prec PyFloat.emax m (PyFloat.emax - PyFloat.prec) = true ->
  PyFloat.mul (S754_finite s m (PyFloat.emax - PyFloat.prec)) (PyFloat.of_int 2)
  = S754_infinity s.
Proof.
  change (PyFloat.of_int 2) with PyFloat.two.
  unfold bounded, canonical_mantissa, fexp, emin, PyFloat.prec, PyFloat.emax.
  rewrite andb_true_iff, Z.eqb_eq, Z.leb_le.
  intros [Hc Hb].
  unfold PyFloat.mul, PyFloat.two, SFmul. rewrite xorb_false_r, mul_pow52.
  unfold binary_round_aux, shr_fexp, fexp, emin.
  cbn [Zdigits2 digits2_pos shr_record_of_loc].
  unfold PyFloat.prec, PyFloat.emax.
  set (d := digits2_pos m) in *.
  replace (Z.max _ _ - (1024 - 53 + -51)) with 52 by lia.
  cbn [shr iter_pos shr_1 orb shr_m loc_of_shr_record round_nearest_even
       Zdigits2 shr_record_of_loc fst snd].
  fold d.
  replace (Z.max _ _ - (1024 - 53 + -51 + 52)) with 0 by lia.
  cbn [shr shr_m]. reflexivity.
Qed.

End WholeRuns.

(** X1: whatever the script, the log of the process begins with the six
    startup calls of the constructor, in the order of lines 78-94 and with
    the arguments it was given, and none of the setup calls (node, publisher,
    audio stream, decoder) is made again later. *)
Theorem startup_calls_once_and_first (a : args) (script : list cycle) :
  exists es,
    log (snd (main a script))
    = [init_node "voice_cmd_vel";
       Publisher (rospub a);
       open_stream;
       start_stream;
       Decoder (model a) (lexicon a) (kwlist a);
       start_utt]
      ++ es
    /\ forallb (fun e => negb (is_setup e)) es = true.
Proof.
  rewrite main_started.
  pose (Q := fun u : world =>
               (armed (ros u) \/ shutdown_flag (ros u) = true)
               /\ exists es,
                    log u = startup_events a ++ es
                    /\ forallb (fun e => negb (is_setup e)) es = true).
  assert (Q (snd (at_exit (loop script) (started a)))) as [_ H].
  { apply at_exit_invariant.
    - intros c u r [Hn [es [Hl Hs]]] Hpass.
      split; [exact (node_after_pass c u r Hpass Hn) |].
      destruct (pass_not_setup c u r Hpass) as [es' [Hl' Hs']].
      exists (es ++ es'). split.
      + rewrite Hl', Hl, app_assoc. reflexivity.
      + rewrite forallb_app, Hs, Hs'. reflexivity.
    - intros u [Hn _]. exact Hn.
    - split; [left; apply started_armed |].
      exists []. split; reflexivity. }
  exact H.
Qed.

(** X2: in every run the decoder's calls come in turn: it is created once,
    the first utterance is started before any audio is processed, every
    [end_utt] ends an open utterance and is followed by a [start_utt], and
    the process ends, however it ends, with an utterance still open. *)
Theorem decoder_calls_in_turn (a : args) (script : list cycle) :
  decoder_after (log (snd (main a script))) = Some InUtterance.
Proof.
  rewrite main_started.
  pose (Q := fun u : world =>
               (armed (ros u) \/ shutdown_flag (ros u) = true)
               /\ decoder_after (log u) = Some InUtterance).
  assert (Q (snd (at_exit (loop script) (started a)))) as [_ H].
  { apply at_exit_invariant.
    - intros c u r [Hn Hu] Hpass.
      split; [exact (node_after_pass c u r Hpass Hn) |].
      exact (pass_in_utterance c u r Hpass Hu).
    - intros u [Hn _]. exact Hn.
    - split; [left; apply started_armed | reflexivity]. }
  exact H.
Qed.

(** X6: if the decoder reports a hypothesis and [seg()] yields no segment,
    line 110 raises UnboundLocalError for [seg]: the iteration has read and
    decoded the buffer and printed its two lines, the utterance is not
    restarted, the held command is not published, command and mode stay as
    they were, and the process exits through shutdown's zero command. *)
Theorem hypothesis_without_segment_raises
  (pre rest : list cycle) (c : cycle) (w w1 : world)
  (b : Byte.byte) (bs : bytes) :
  loop pre w = (inr None, w1) ->
  armed (ros w1) ->
  sigint c = NoSignal ->
  audio c = Data (b :: bs) ->
  hyp (decoder c) <> None ->
  seg (decoder c) = [] ->
  at_exit (loop (pre ++ c :: rest)) w
  = (Exited (inl (UnboundLocalError "seg")),
     {| self := self w1;
        ros := shut_down;
        log := log w1
               ++ [stream_read 1024;
                   process_raw (b :: bs);
                   print_segs [];
                   print "Detected keyphrase, restarting search"]
               ++ [loginfo "Stop ASRControl"; publish Twist_new; sleep 1] |}).
Proof.
  intros Hpre Ha Hs Hau Hh Hz.
  unfold at_exit.
  rewrite loop_app, Hpre, loop_cons.
  rewrite (iteration_body c w1 (proj1 Ha) Hs), Hau.
  rewrite (parse_asr_result_raises _ _ Hh Hz), logged_logged.
  rewrite signal_shutdown_armed by exact Ha.
  cbn [snd self log logged app]. rewrite <- app_assoc. reflexivity.
Qed.

Lemma hypothesis_without_segment_raises_witness :
  armed (ros (holding half_and_three_tenths))
  /\ hyp heard_without_segment <> None
  /\ seg heard_without_segment = []
  /\ at_exit (loop ([] ++ hearing heard_without_segment :: [hearing heard_full_speed]))
       (holding half_and_three_tenths)
     = (Exited (inl (UnboundLocalError "seg")),
        {| self := self (holding half_and_three_tenths);
           ros := shut_down;
           log := [stream_read 1024;
                   process_raw [Byte.x00];
                   print_segs [];
                   print "Detected keyphrase, restarting search";
                   loginfo "Stop ASRControl"; publish Twist_new; sleep 1] |}).
Proof.
  assert (armed (ros (holding half_and_three_tenths))) as Ha
      by (split; reflexivity).
  split; [exact Ha |]. split; [discriminate |]. split; [reflexivity |].
  apply (hypothesis_without_segment_raises [] [hearing heard_full_speed]
           (hearing heard_without_segment)
           (holding half_and_three_tenths) (holding half_and_three_tenths)
           Byte.x00 [] eq_refl Ha eq_refl eq_refl);
    [discriminate | reflexivity].
Defined.

(** X7: an exception raised by the read is caught nowhere: the loop ends
    with it, nothing is decoded or published for that iteration, the rest of
    the script is not consumed, command and mode stay as they were, and the
    process exits through shutdown's zero command. *)
Theorem read_error_ends_process
  (pre rest : list cycle) (c : cycle) (w w1 : world) :
  loop pre w = (inr None, w1) ->
  armed (ros w1) ->
  sigint c = NoSignal ->
  audio c = ReadError ->
  at_exit (loop (pre ++ c :: rest)) w
  = (Exited (inl IOError),
     {| self := self w1;
        ros := shut_down;
        log := log w1
               ++ [stream_read 1024]
               ++ [loginfo "Stop ASRControl"; publish Twist_new; sleep 1] |}).
Proof.
  intros Hpre Ha Hs Hau.
  unfold at_exit.
  rewrite loop_app, Hpre, loop_cons.
  rewrite (iteration_body c w1 (proj1 Ha) Hs), Hau.
  rewrite signal_shutdown_armed by exact Ha.
  cbn [snd self log logged app]. rewrite <- app_assoc. reflexivity.
Qed.

Lemma read_error_ends_process_witness :
  fst (loop [hearing heard_full_speed] (holding half_and_three_tenths)) = inr None
  /\ armed (ros (snd (loop [hearing heard_full_speed]
                        (holding half_and_three_tenths))))
  /\ fst (at_exit (loop ([hearing heard_full_speed]
                         ++ read_error :: [hearing heard_full_speed]))
            (holding half_and_three_tenths))
     = Exited (inl IOError)
  /\ published
       (log (snd (at_exit (loop ([hearing heard_full_speed]
                                 ++ read_error :: [hearing heard_full_speed]))
                    (holding half_and_three_tenths))))
     = [doubled half_and_three_tenths; Twist_new].
Proof.
  assert (armed (ros (snd (loop [hearing heard_full_speed]
                             (holding half_and_three_tenths))))) as Ha
      by (split; reflexivity).
  split; [reflexivity |]. split; [exact Ha |].
  rewrite (read_error_ends_process [hearing heard_full_speed]
             [hearing heard_full_speed] read_error
             (holding half_and_three_tenths)
             (snd (loop [hearing heard_full_speed]
                     (holding half_and_three_tenths)))
             eq_refl Ha eq_refl eq_refl).
  split; reflexivity.
Defined.

(** X8: an interrupt ends the loop at its test: the interrupted iteration
    reads, decodes and publishes nothing, the rest of the script is not
    consumed, shutdown runs once for the interrupt and not again when the
    interpreter exits, and command and mode stay as they were. *)
Theorem interrupt_stops_before_read
  (pre rest : list cycle) (c : cycle) (w w1 : world) :
  loop pre w = (inr None, w1) ->
  armed (ros w1) ->
  sigint c = AtLoopTest ->
  at_exit (loop (pre ++ c :: rest)) w
  = (Exited (inr ShutdownObserved),
     {| self := self w1;
        ros := shut_down;
        log := log w1
               ++ [loginfo "Stop ASRControl"; publish Twist_new; sleep 1] |}).
Proof.
  intros Hpre Ha Hs.
  unfold at_exit.
  rewrite loop_app, Hpre, loop_cons.
  pose proof (iteration_pass c w1 (or_introl Ha)) as P.
  inversion P as [Hf E | _ _ E | Hf Hs' Hau E | Hf Hs' Hau E
                 | b bs Hf Hs' Hau Hc E | b bs Hf Hs' Hau Hh Hz E];
    try congruence.
  - destruct Ha as [Ha _]. congruence.
  - rewrite signal_shutdown_again by reflexivity. reflexivity.
Qed.

Lemma interrupt_stops_before_read_witness :
  fst (loop [hearing heard_full_speed] (holding half_and_three_tenths)) = inr None
  /\ armed (ros (snd (loop [hearing heard_full_speed]
                        (holding half_and_three_tenths))))
  /\ sigint interrupt = AtLoopTest
  /\ published
       (log (snd (at_exit (loop ([hearing heard_full_speed]
                                 ++ interrupt :: [hearing heard_full_speed]))
                    (holding half_and_three_tenths))))
     = [doubled half_and_three_tenths; Twist_new].
Proof.
  assert (armed (ros (snd (loop [hearing heard_full_speed]
                             (holding half_and_three_tenths))))) as Ha
      by (split; reflexivity).
  split; [reflexivity |]. split; [exact Ha |]. split; [reflexivity |].
  rewrite (interrupt_stops_before_read [hearing heard_full_speed]
             [hearing heard_full_speed] interrupt
             (holding half_and_three_tenths)
             (snd (loop [hearing heard_full_speed]
                     (holding half_and_three_tenths)))
             eq_refl Ha eq_refl).
  reflexivity.
Defined.

(** X9: while the process is still in its loop, it has decoded every buffer
    of the script, unchanged and in the order read, and has published
    exactly one command per buffer: a loop that is still running has gone
    through no iteration without its decode and its publish. *)
Theorem running_process_keeps_pace
  (a : args) (script : list cycle) (w' : world) :
  main a script = (StillRunning, w') ->
  decoded_buffers (log w') = map buffer script
  /\ List.length (published (log w')) = List.length script.
Proof.
  rewrite main_started. unfold at_exit.
  destruct (loop script (started a)) as [[e | [why |]] w1] eqn:E;
    try discriminate.
  intros [= <-].
  destruct (running_loop script (started a) w1 (started_armed a) E)
    as [_ [Hd Hp]].
  split; [exact Hd | exact Hp].
Qed.

Lemma running_process_keeps_pace_witness :
  fst (main default_args [hearing heard_stop; hearing heard_full_speed]) = StillRunning
  /\ decoded_buffers
       (log (snd (main default_args [hearing heard_stop; hearing heard_full_speed])))
     = [[Byte.x00]; [Byte.x00]]
  /\ List.length
       (published
          (log (snd (main default_args [hearing heard_stop; hearing heard_full_speed]))))
     = 2%nat.
Proof.
  split; [reflexivity |].
  apply (running_process_keeps_pace default_args
           [hearing heard_stop; hearing heard_full_speed]).
  reflexivity.
Defined.

(** X10: over a whole run of iterations from the baseline, the command is
    doubled at most once however many iterations detect "full speed": the
    commands published are the held command up to the first detection and
    the doubled command from that iteration on, and the run ends in the
    raised mode with the doubled command if some iteration detected the
    keyword, unchanged if none did. *)
Theorem run_doubles_at_most_once (script : list cycle) (w : world) :
  shutdown_flag (ros w) = false ->
  speed (self w) = PyFloat.lit_0_2 ->
  Forall (fun c => reads_data c /\ coherent (decoder c)) script ->
  exists w',
    loop script w = (inr None, w')
    /\ published (log w')
       = published (log w)
         ++ commands_of_run (msg (self w)) (map decoder script)
    /\ self w'
       = (if existsb full_speed_detected (map decoder script)
          then {| speed := PyFloat.lit_0_4; msg := doubled (msg (self w)) |}
          else self w).
Proof.
  intros Hf Hs Hq. revert w Hf Hs.
  induction Hq as [|c rest [[Hi [b [bs Hau]]] Hc] Hrest IH]; intros w Hf Hs.
  - exists w. rewrite loop_nil, Hf. cbn. rewrite app_nil_r. auto.
  - rewrite loop_cons, (iteration_body c w Hf Hi), Hau.
    rewrite (parse_asr_result_returns _ _ Hc).
    cbn [self ros log logged map commands_of_run existsb].
    destruct (full_speed_detected (decoder c)) eqn:Hd.
    + (* the first detection: the rest runs in the raised mode *)
      rewrite (dispatch_baseline (decoder c) (self w) Hd Hs).
      match goal with
      | |- context [loop rest ?u] =>
          destruct (loop_elevated rest u Hf eq_refl Hrest)
            as [w' [Hrun [Hself Hpub]]]
      end.
      cbn [self log msg] in Hself, Hpub.
      exists w'. split; [exact Hrun |]. split.
      * rewrite Hpub, !published_app, published_diagnostics.
        cbn [published app repeat]. rewrite length_map.
        rewrite app_nil_r, <- app_assoc. reflexivity.
      * cbn [orb]. exact Hself.
    + rewrite (dispatch_not_detected (decoder c) (self w) Hd).
      match goal with
      | |- context [loop rest ?u] =>
          destruct (IH u Hf Hs) as [w' [Hrun [Hpub Hself]]]
      end.
      cbn [self log] in Hself, Hpub.
      exists w'. split; [exact Hrun |]. split.
      * rewrite Hpub, !published_app, published_diagnostics.
        cbn [published app].
        rewrite app_nil_r, <- app_assoc. reflexivity.
      * cbn [orb]. exact Hself.
Qed.

Lemma run_doubles_at_most_once_witness :
  shutdown_flag (ros (holding half_and_three_tenths)) = false
  /\ speed (self (holding half_and_three_tenths)) = PyFloat.lit_0_2
  /\ exists w',
       loop [hearing heard_stop; hearing heard_full_speed;
             hearing heard_nothing; hearing heard_full_speed]
         (holding half_and_three_tenths)
       = (inr None, w')
       /\ published (log w')
          = [half_and_three_tenths;
             doubled half_and_three_tenths;
             doubled half_and_three_tenths;
             doubled half_and_three_tenths]
       /\ self w'
          = {| speed := PyFloat.lit_0_4; msg := doubled half_and_three_tenths |}.
Proof.
  split; [reflexivity |]. split; [reflexivity |].
  apply (run_doubles_at_most_once
           [hearing heard_stop; hearing heard_full_speed;
            hearing heard_nothing; hearing heard_full_speed]
           (holding half_and_three_tenths) eq_refl eq_refl).
  repeat (apply Forall_cons;
          [ split;
            [ split; [reflexivity | exists Byte.x00, []; reflexivity]
            | first [ intros _; discriminate
                    | intros Hh; exfalso; apply Hh; reflexivity ] ]
          | ]).
  apply Forall_nil.
Defined.

(** X11: the doubling is not capped: when "full speed" is detected at the
    baseline while linear.x holds a binary64 number of the top binade, the
    command published carries the infinity of the same sign in linear.x. *)
Theorem doubling_overflows_to_infinity
  (d : decoded) (w : world) (s : bool) (m : positive) :
  hears_full_speed d ->
  speed (self w) = PyFloat.lit_0_2 ->
  x (linear (msg (self w))) = S754_finite s m (PyFloat.emax - PyFloat.prec) ->
  PyFloat.valid (x (linear (msg (self w)))) = true ->
  exists w',
    parse_asr_result d w = (inr tt, w')
    /\ x (linear (msg (self w'))) = S754_infinity s
    /\ published (log w') = published (log w) ++ [msg (self w')].
Proof.
  intros Hd Hs Hx Hv. apply hears_full_speed_detected in Hd.
  eexists. split.
  - apply parse_asr_result_returns, detected_coherent, Hd.
  - cbn [self log]. rewrite (dispatch_baseline d (self w) Hd Hs). cbn [msg].
    rewrite !published_app, published_diagnostics.
    split; [| reflexivity].
    rewrite (proj1 (doubled_fields (msg (self w)))).
    rewrite Hx in Hv |- *. apply mul_two_top. exact Hv.
Qed.

Lemma doubling_overflows_to_infinity_witness :
  hears_full_speed heard_full_speed
  /\ PyFloat.valid max_float = true
  /\ exists w',
       parse_asr_result heard_full_speed
         (holding {| linear := set_x Vector3_new max_float;
                     angular := Vector3_new |})
       = (inr tt, w')
       /\ x (linear (msg (self w'))) = S754_infinity false.
Proof.
  assert (hears_full_speed heard_full_speed) as Hd.
  { exists {| hypstr := "FULL SPEED"; best_score := 0; hyp_prob := 0 |},
      (segment "FULL SPEED").
    repeat split. exists ""%string, ""%string. reflexivity. }
  split; [exact Hd |]. split; [reflexivity |].
  destruct (doubling_overflows_to_infinity heard_full_speed
              (holding {| linear := set_x Vector3_new max_float;
                          angular := Vector3_new |})
              false 9007199254740991 Hd eq_refl eq_refl eq_refl)
    as [w' [H1 [H2 _]]].
  exists w'. split; assumption.
Defined.

Section TwoStates.

Lemma dispatch_two_states (m0 : Twist) (d : decoded) (s : ASRControl) :
  s = {| speed := PyFloat.lit_0_2; msg := m0 |}
  \/ s = {| speed := PyFloat.lit_0_4; msg := doubled m0 |} ->
  dispatch d s = {| speed := PyFloat.lit_0_2; msg := m0 |}
  \/ dispatch d s = {| speed := PyFloat.lit_0_4; msg := doubled m0 |}.
Proof.
  intros [-> | ->].
  - unfold dispatch.
    destruct (full_speed_detected d); cbn [andb speed msg]; auto.
  - rewrite dispatch_elevated by reflexivity. auto.
Qed.

(** From the baseline with [m0] held, a run only ever holds [m0] at 0.2 or
    the doubled [m0] at 0.4, and publishes nothing but the command it holds
    or shutdown's zero command. *)
Lemma run_two_states (m0 : Twist) (script : list cycle) (w : world) :
  armed (ros w) ->
  self w = {| speed := PyFloat.lit_0_2; msg := m0 |} ->
  (self (snd (at_exit (loop script) w)) = {| speed := PyFloat.lit_0_2; msg := m0 |}
   \/ self (snd (at_exit (loop script) w))
      = {| speed := PyFloat.lit_0_4; msg := doubled m0 |})
  /\ exists ms,
       published (log (snd (at_exit (loop script) w))) = published (log w) ++ ms
       /\ Forall (fun m => m = m0 \/ m = doubled m0 \/ m = Twist_new) ms.
Proof.
  intros Ha Hw.
  pose (Q := fun u : world =>
               (armed (ros u) \/ shutdown_flag (ros u) = true)
               /\ (self u = {| speed := PyFloat.lit_0_2; msg := m0 |}
                   \/ self u = {| speed := PyFloat.lit_0_4; msg := doubled m0 |})
               /\ exists ms,
                    published (log u) = published (log w) ++ ms
                    /\ Forall (fun m => m = m0 \/ m = doubled m0 \/ m = Twist_new) ms).
  assert (Q (snd (at_exit (loop script) w))) as [_ H].
  { apply at_exit_invariant.
    - intros c u r [Hn [Hs [ms [Hp Hall]]]] Hpass.
      assert (self (snd r) = {| speed := PyFloat.lit_0_2; msg := m0 |}
              \/ self (snd r) = {| speed := PyFloat.lit_0_4; msg := doubled m0 |})
        as Hs'.
      { destruct (pass_self c u r Hpass) as [[-> | ->] _];
          [exact Hs | apply dispatch_two_states; exact Hs]. }
      split; [exact (node_after_pass c u r Hpass Hn) |].
      split; [exact Hs' |].
      destruct (pass_published c u r Hpass) as [ms' [-> Hms']].
      exists (ms ++ ms').
      rewrite Hp, app_assoc. split; [reflexivity |].
      apply Forall_app. split; [exact Hall |].
      apply (Forall_impl _ (P := fun m => m = Twist_new \/ m = msg (self (snd r))));
        [| exact Hms'].
      intros m [-> | ->]; [auto |].
      destruct Hs' as [-> | ->]; cbn [msg]; auto.
    - intros u [Hn _]. exact Hn.
    - split; [left; exact Ha |]. split; [left; exact Hw |].
      exists []. rewrite app_nil_r. split; [reflexivity | constructor]. }
  exact H.
Qed.

End TwoStates.

(** X12: whatever the script (detections, other keywords, read errors,
    interrupts), a run that starts at the baseline holding a command only
    ever holds that command at 0.2 or its double at 0.4, and every command
    it publishes is that command, its double or shutdown's zero command. *)
Theorem run_holds_command_or_its_double (script : list cycle) (w : world) :
  armed (ros w) ->
  speed (self w) = PyFloat.lit_0_2 ->
  (self (snd (at_exit (loop script) w)) = self w
   \/ self (snd (at_exit (loop script) w))
      = {| speed := PyFloat.lit_0_4; msg := doubled (msg (self w)) |})
  /\ exists ms,
       published (log (snd (at_exit (loop script) w))) = published (log w) ++ ms
       /\ Forall (fun m => m = msg (self w)
                           \/ m = doubled (msg (self w))
                           \/ m = Twist_new) ms.
Proof.
  intros Ha Hs.
  assert (self w = {| speed := PyFloat.lit_0_2; msg := msg (self w) |}) as Hw
      by (rewrite <- Hs; destruct (self w); reflexivity).
  destruct (run_two_states (msg (self w)) script w Ha Hw) as [H1 H2].
  split; [| exact H2].
  rewrite <- Hw in H1. exact H1.
Qed.

Lemma run_holds_command_or_its_double_witness :
  armed (ros (holding half_and_three_tenths))
  /\ speed (self (holding half_and_three_tenths)) = PyFloat.lit_0_2
  /\ (self (snd (at_exit (loop [hearing heard_stop; hearing heard_full_speed;
                                read_error])
                   (holding half_and_three_tenths)))
      = self (holding half_and_three_tenths)
      \/ self (snd (at_exit (loop [hearing heard_stop; hearing heard_full_speed;
                                   read_error])
                      (holding half_and_three_tenths)))
         = {| speed := PyFloat.lit_0_4;
              msg := doubled (msg (self (holding half_and_three_tenths))) |}).
Proof.
  assert (armed (ros (holding half_and_three_tenths))) as Ha
      by (split; reflexivity).
  split; [exact Ha |]. split; [reflexivity |].
  exact (proj1 (run_holds_command_or_its_double
                  [hearing heard_stop; hearing heard_full_speed; read_error]
                  (holding half_and_three_tenths) Ha eq_refl)).
Defined.
